(** * MeshRasterizer: settings resolution and the world-to-NDC transform

    A shallow embedding of [pytorch3d/renderer/mesh/rasterizer.py].

    Python floats are IEEE-754 binary64 numbers: they are modelled by Rocq's
    primitive floats.  Python objects that are shared and updated in place
    (tensors, [Meshes] batches, the [RasterizationSettings] dataclass) live
    in a store indexed by references; methods are computations in a
    state-and-exception monad over that store, so that aliasing and in-place
    assignment such as [verts_ndc[..., 2] = verts_view[..., 2]] keep their
    meaning. *)

From Stdlib Require Import ZArith Floats.
From stdpp Require Import base option list gmap strings pretty.

(** ** Floats *)

Module PyFloat.

Definition zero : float := 0%float.
Definition two : float := 2%float.

(** [x > 0.0] *)
Definition gt_zero (x : float) : bool := PrimFloat.ltb zero x.

(** [x / 2] *)
Definition half (x : float) : float := PrimFloat.div x two.

End PyFloat.

(** ** Exceptions *)

Inductive exn : Type :=
| ValueError (msg : string)
| RuntimeError (msg : string)
| AttributeError (msg : string)
| TypeError (msg : string).

Definition is_ValueError (e : exn) : bool :=
  match e with ValueError _ => true | _ => false end.

(** The two messages of [MeshRasterizer.transform].  The first literal is
    continued over a line break inside the string, so the indentation of the
    second source line is part of the message. *)
Definition msg_cameras_missing : string :=
  "Cameras must be specified either at initialization " +:+
  "                or in the forward pass of MeshRasterizer".

Definition msg_wrong_number (n_cameras n_meshes : nat) : string :=
  "Wrong number (" +:+ pretty n_cameras +:+ ") of cameras for "
    +:+ pretty n_meshes +:+ " meshes".

(** ** Data *)

(** A row of a tensor whose last dimension is 3. *)
Record Point : Type := mkPoint { px : float; py : float; pz : float }.

(** A row of the face tensor: three vertex indices ([-1] is the padding). *)
Record Face : Type := mkFace { f0 : Z; f1 : Z; f2 : Z }.

(** [image_size: Union[int, Tuple[int, int]]] *)
Inductive ImageSize : Type :=
| SizeSquare (n : Z)
| SizeHW (h w : Z).

(** The dataclass [RasterizationSettings]. *)
Record RasterizationSettings : Type := mkSettings {
  image_size : ImageSize;
  blur_radius : float;
  faces_per_pixel : Z;
  bin_size : option Z;
  max_faces_per_bin : option Z;
  perspective_correct : option bool;
  clip_barycentric_coords : option bool;
  cull_backfaces : bool;
  z_clip_value : option float;
  cull_to_frustum : bool
}.

(** [RasterizationSettings()] *)
Definition default_settings : RasterizationSettings :=
  {| image_size := SizeSquare 256;
     blur_radius := 0%float;
     faces_per_pixel := 1;
     bin_size := None;
     max_faces_per_bin := None;
     perspective_correct := None;
     clip_barycentric_coords := None;
     cull_backfaces := false;
     z_clip_value := None;
     cull_to_frustum := false |}.

(** What [cameras.get_znear()] may return: [None], a number, or a
    one-dimensional tensor with one value per camera, given by its elements
    (none for a bundle of no cameras). *)
Inductive Znear : Type :=
| ZnearNone
| ZnearFloat (z : float)
| ZnearTensor (t : list float).

(** [t.min().item()] for a tensor [t] that is not empty.  The reduction
    belongs to torch, whose contract does not say which of two elements
    that compare equal (two zeros of different sign) it returns: it is a
    parameter, with what the contract does say.  The result is an element
    of the tensor, and no element is below it. *)
Class TensorMin : Type := {
  tensor_min : list float -> float;
  tensor_min_elem : forall t, t <> [] -> tensor_min t ∈ t;
  tensor_min_lower :
    forall t x, x ∈ t -> PrimFloat.ltb x (tensor_min t) = false
}.

(** References into the store. *)
Definition loc : Type := positive.

(** The objects of the store. *)
Inductive object : Type :=
| OVerts (v : list (list Point))
| OFaces (f : list (list Face))
| OMeshes (verts_padded faces_padded : loc)
| OSettings (s : RasterizationSettings).

(** The keyword arguments of one call of [rasterize_meshes], with the
    reference of the mesh batch it is given. *)
Record RasterCall : Type := mkRasterCall {
  rc_meshes : loc;
  rc_image_size : ImageSize;
  rc_blur_radius : float;
  rc_faces_per_pixel : Z;
  rc_bin_size : option Z;
  rc_max_faces_per_bin : option Z;
  rc_clip_barycentric_coords : bool;
  rc_perspective_correct : bool;
  rc_cull_backfaces : bool;
  rc_z_clip_value : option float;
  rc_cull_to_frustum : bool
}.

(** The machine state: the store and the calls of [rasterize_meshes] made so
    far, oldest first. *)
Record state : Type := mkState {
  heap : gmap loc object;
  calls : list RasterCall
}.

(** ** The state-and-exception monad *)

Definition M (A : Type) : Type := state -> (exn + A) * state.

Definition ret {A} (a : A) : M A := fun s => (inr a, s).

Definition raise {A} (e : exn) : M A := fun s => (inl e, s).

Definition bind {A B} (m : M A) (k : A -> M B) : M B :=
  fun s =>
    match m s with
    | (inl e, s') => (inl e, s')
    | (inr a, s') => k a s'
    end.

#[global] Instance M_ret : MRet M := @ret.
#[global] Instance M_bind : MBind M := fun A B k m => bind m k.

(** *** Store primitives *)

Definition read (l : loc) : M object :=
  fun s =>
    match heap s !! l with
    | Some o => (inr o, s)
    | None => (inl (TypeError "dangling reference"), s)
    end.

Definition alloc (o : object) : M loc :=
  fun s =>
    let l := fresh (dom (heap s)) in
    (inr l, {| heap := <[l := o]> (heap s); calls := calls s |}).

Definition write (l : loc) (o : object) : M unit :=
  fun s => (inr tt, {| heap := <[l := o]> (heap s); calls := calls s |}).

Definition read_verts (l : loc) : M (list (list Point)) :=
  o ← read l;
  match o with
  | OVerts v => ret v
  | _ => raise (TypeError "not a vertex tensor")
  end.

Definition read_settings (l : loc) : M RasterizationSettings :=
  o ← read l;
  match o with
  | OSettings s => ret s
  | _ => raise (TypeError "not a RasterizationSettings")
  end.

(** ** Tensor helpers *)

(** Position-wise combination of two lists of the same length; [None] when
    the lengths differ. *)
Fixpoint zip_exact {A B C} (f : A -> B -> option C) (l : list A) (k : list B)
  : option (list C) :=
  match l, k with
  | [], [] => Some []
  | a :: l', b :: k' =>
      match f a b, zip_exact f l' k' with
      | Some c, Some r => Some (c :: r)
      | _, _ => None
      end
  | _, _ => None
  end.

(** The value of [dst] after [dst[..., 2] = src[..., 2]] for two tensors of
    shape (N, V, 3): component 2 of every row is replaced.  Tensors of
    different shapes are not assigned (broadcasting is not modelled). *)
Definition splice_z (dst src : list (list Point)) : option (list (list Point)) :=
  zip_exact
    (zip_exact (fun d s => Some {| px := px d; py := py d; pz := pz s |}))
    dst src.

(** ** The collaborators of [MeshRasterizer] *)

(** Modelled from the spec: the interface of [Transform3d] (the class is
    not part of the source file).  A transform maps the points of batch
    element [n]; [compose a b] is the transform [a.compose(b)]. *)
Class Transform3d (T : Type) : Type := {
  compose : T -> T -> T;
  transform_point : T -> option float -> nat -> Point -> Point
}.

(** [rasterize_meshes] is imported from a module that is not part of the
    source file: its result is determined by the store (the contents of the
    mesh batch) and its arguments; it either raises or returns five tensors
    of type [Tensor]. *)
Class Rasterize (Tensor : Type) : Type :=
  rasterize_meshes_impl :
    gmap loc object -> RasterCall ->
    exn + (Tensor * Tensor * Tensor * Tensor * Tensor).

Section Rasterizer.

(** [T] is the type of transforms, [KwRest] that of the keyword arguments
    that are only passed on to the camera methods, [Tensor] that of the
    output tensors of [rasterize_meshes]. *)
Context {T : Type} `{Transform3d T} {KwRest Tensor : Type} `{Rasterize Tensor}.
Context `{TensorMin}.

(** Modelled from the spec: the camera bundle (the camera classes are not
    part of the source file): the number of cameras, the three transforms,
    the perspective flag and the near-plane distance. *)
Record Cameras : Type := mkCameras {
  cameras_len : nat;
  get_world_to_view_transform : KwRest -> T;
  get_ndc_camera_transform : KwRest -> T;
  get_projection_transform : KwRest -> T;
  is_perspective : bool;
  get_znear : Znear
}.

(** The class [Fragments]. *)
Record Fragments : Type := mkFragments {
  pix_to_face : Tensor;
  zbuf : Tensor;
  bary_coords : Tensor;
  dists : Tensor;
  back_faces : Tensor
}.

(** [**kwargs]: for the keys [cameras] and [raster_settings] the outer
    option says whether the key is present, the inner one whether its
    value is [None]; [kw_eps] is [kwargs.get("eps", None)]. *)
Record Kwargs : Type := mkKwargs {
  kw_cameras : option (option Cameras);
  kw_raster_settings : option (option loc);
  kw_eps : option float;
  kw_rest : KwRest
}.

(** [kwargs.get(key, default)] *)
Definition kwargs_get {A} (entry : option A) (default : A) : A :=
  match entry with
  | Some v => v
  | None => default
  end.

(** The attributes of a [MeshRasterizer]; [__init__] stores the cameras as
    given and a settings object (a fresh default one when none is
    given). *)
Record MeshRasterizer : Type := mkMeshRasterizer {
  self_cameras : option Cameras;
  self_raster_settings : loc
}.

(** [MeshRasterizer.__init__] *)
Definition init (cameras : option Cameras) (raster_settings : option loc)
  : M MeshRasterizer :=
  raster_settings ←
    match raster_settings with
    | None => alloc (OSettings default_settings)
    | Some l => mret l
    end;
  mret {| self_cameras := cameras; self_raster_settings := raster_settings |}.

(** *** [Meshes] and [Transform3d] methods *)

(** Modelled from the spec: [Meshes.verts_padded] (the class is not part
    of the source file) returns the batch's own vertex tensor. *)
Definition verts_padded (meshes : loc) : M loc :=
  o ← read meshes;
  match o with
  | OMeshes v _ => mret v
  | _ => raise (TypeError "not a Meshes")
  end.

(** Modelled from the spec: [len(meshes)] is the number of meshes of the
    batch, the first dimension of the padded vertex tensor. *)
Definition meshes_len (meshes : loc) : M nat :=
  v ← verts_padded meshes;
  t ← read_verts v;
  mret (length t).

(** Modelled from the spec: [Meshes.update_padded] yields a new batch
    with the given vertex tensor, sharing the face topology. *)
Definition update_padded (meshes new_verts_padded : loc) : M loc :=
  o ← read meshes;
  match o with
  | OMeshes _ f => alloc (OMeshes new_verts_padded f)
  | _ => raise (TypeError "not a Meshes")
  end.

(** Modelled from the spec: [Transform3d.transform_points] produces a new
    tensor of the same shape, every point of batch element [n] mapped by
    the transform of that element. *)
Definition transform_points (t : T) (points : loc) (eps : option float)
  : M loc :=
  pts ← read_verts points;
  alloc (OVerts (imap (fun n => fmap (transform_point t eps n)) pts)).

(** [dst[..., 2] = src[..., 2]] *)
Definition setitem_z (dst src : loc) : M unit :=
  d ← read_verts dst;
  s ← read_verts src;
  match splice_z d s with
  | Some r => write dst (OVerts r)
  | None => raise (RuntimeError "shape mismatch")
  end.

(** The call of [rasterize_meshes]: recorded, then answered by the
    implementation. *)
Definition rasterize_meshes (c : RasterCall)
  : M (Tensor * Tensor * Tensor * Tensor * Tensor) :=
  fun s =>
    let s' := {| heap := heap s; calls := calls s ++ [c] |} in
    match rasterize_meshes_impl (heap s) c with
    | inl e => (inl e, s')
    | inr r => (inr r, s')
    end.

(** *** [MeshRasterizer.transform] *)

Definition transform (self : MeshRasterizer) (meshes_world : loc)
  (kwargs : Kwargs) : M loc :=
  let cameras := kwargs_get (kw_cameras kwargs) (self_cameras self) in
  match cameras with
  | None => raise (ValueError msg_cameras_missing)
  | Some cameras =>
      let n_cameras := cameras_len cameras in
      mismatch ←
        (if bool_decide (n_cameras ≠ 1)
         then n ← meshes_len meshes_world; mret (bool_decide (n_cameras ≠ n))
         else mret false);
      if (mismatch : bool) then
        n ← meshes_len meshes_world;
        raise (ValueError (msg_wrong_number n_cameras n))
      else
        verts_world ← verts_padded meshes_world;
        let eps := kw_eps kwargs in
        verts_view ←
          transform_points
            (get_world_to_view_transform cameras (kw_rest kwargs))
            verts_world eps;
        let to_ndc_transform :=
          get_ndc_camera_transform cameras (kw_rest kwargs) in
        let projection_transform :=
          compose (get_projection_transform cameras (kw_rest kwargs))
                  to_ndc_transform in
        verts_ndc ← transform_points projection_transform verts_view eps;
        setitem_z verts_ndc verts_view;;
        update_padded meshes_world verts_ndc
  end.

(** *** Settings resolution, the middle part of [MeshRasterizer.forward] *)

(** [clip_barycentric_coords = raster_settings.clip_barycentric_coords;
     if clip_barycentric_coords is None:
         clip_barycentric_coords = raster_settings.blur_radius > 0.0] *)
Definition resolve_clip_barycentric_coords (rs : RasterizationSettings)
  : bool :=
  match clip_barycentric_coords rs with
  | Some b => b
  | None => PyFloat.gt_zero (blur_radius rs)
  end.

(** [if raster_settings.perspective_correct is not None:
         perspective_correct = raster_settings.perspective_correct
     else:
         perspective_correct = cameras.is_perspective()] *)
Definition resolve_perspective_correct (rs : RasterizationSettings)
  (cameras : Cameras) : bool :=
  match perspective_correct rs with
  | Some b => b
  | None => is_perspective cameras
  end.

(** A failing step, as a computation. *)
Definition lift_exn {A} (r : exn + A) : M A := fun s => (r, s).

(** [if isinstance(znear, torch.Tensor): znear = znear.min().item()];
    [min()] of a tensor without elements raises a [RuntimeError]. *)
Definition znear_item (znear : Znear) : exn + option float :=
  match znear with
  | ZnearTensor [] => inl (RuntimeError "min(): cannot reduce an empty tensor")
  | ZnearTensor t => inr (Some (tensor_min t))
  | ZnearFloat z => inr (Some z)
  | ZnearNone => inr None
  end.

(** [if raster_settings.z_clip_value is not None:
         z_clip = raster_settings.z_clip_value
     else:
         znear = cameras.get_znear()
         ...
         z_clip = None if not perspective_correct or znear is None
                  else znear / 2] *)
Definition resolve_z_clip (rs : RasterizationSettings) (cameras : Cameras)
  (perspective_correct : bool) : exn + option float :=
  match z_clip_value rs with
  | Some z => inr (Some z)
  | None =>
      match znear_item (get_znear cameras) with
      | inl e => inl e
      | inr znear =>
          inr (if negb perspective_correct then None
               else match znear with
                    | None => None
                    | Some z => Some (PyFloat.half z)
                    end)
      end
  end.

(** *** [MeshRasterizer.forward] *)

Definition forward (self : MeshRasterizer) (meshes_world : loc)
  (kwargs : Kwargs) : M Fragments :=
  meshes_proj ← transform self meshes_world kwargs;
  raster_settings ←
    match kwargs_get (kw_raster_settings kwargs)
                     (Some (self_raster_settings self)) with
    | Some l => read_settings l
    | None =>
        raise (AttributeError "NoneType has no attribute clip_barycentric_coords")
    end;
  let clip_barycentric_coords :=
    resolve_clip_barycentric_coords raster_settings in
  let cameras := kwargs_get (kw_cameras kwargs) (self_cameras self) in
  match cameras with
  | None => raise (AttributeError "NoneType has no attribute is_perspective")
  | Some cameras =>
      let perspective_correct :=
        resolve_perspective_correct raster_settings cameras in
      z_clip ←
        lift_exn (resolve_z_clip raster_settings cameras perspective_correct);
      '(pix_to_face, zbuf, bary_coords, dists, back_faces) ←
        rasterize_meshes
          {| rc_meshes := meshes_proj;
             rc_image_size := image_size raster_settings;
             rc_blur_radius := blur_radius raster_settings;
             rc_faces_per_pixel := faces_per_pixel raster_settings;
             rc_bin_size := bin_size raster_settings;
             rc_max_faces_per_bin := max_faces_per_bin raster_settings;
             rc_clip_barycentric_coords := clip_barycentric_coords;
             rc_perspective_correct := perspective_correct;
             rc_cull_backfaces := cull_backfaces raster_settings;
             rc_z_clip_value := z_clip;
             rc_cull_to_frustum := cull_to_frustum raster_settings |};
      mret {| pix_to_face := pix_to_face; zbuf := zbuf;
              bary_coords := bary_coords; dists := dists;
              back_faces := back_faces |}
  end.

(** ** Descriptions of the results *)

(** The row of the result for batch element [n]: x and y of [g n p], z of
    [p]. *)
Definition splice_point (g : nat -> Point -> Point) (n : nat) (p : Point)
  : Point :=
  {| px := px (g n p); py := py (g n p); pz := pz p |}.

(** The cameras in effect: [kwargs.get("cameras", self.cameras)]. *)
Definition cameras_of (self : MeshRasterizer) (kwargs : Kwargs)
  : option Cameras :=
  kwargs_get (kw_cameras kwargs) (self_cameras self).

(** The settings in effect:
    [kwargs.get("raster_settings", self.raster_settings)]. *)
Definition settings_of (self : MeshRasterizer) (kwargs : Kwargs)
  : option loc :=
  kwargs_get (kw_raster_settings kwargs) (Some (self_raster_settings self)).

(** The world-to-view map of batch element [n]. *)
Definition view_map (c : Cameras) (kwargs : Kwargs) : nat -> Point -> Point :=
  transform_point (get_world_to_view_transform c (kw_rest kwargs))
                  (kw_eps kwargs).

(** The composed projection-then-NDC map of batch element [n]. *)
Definition ndc_map (c : Cameras) (kwargs : Kwargs) : nat -> Point -> Point :=
  transform_point
    (compose (get_projection_transform c (kw_rest kwargs))
             (get_ndc_camera_transform c (kw_rest kwargs)))
    (kw_eps kwargs).

Definition verts_view_of (c : Cameras) (kwargs : Kwargs)
  (world : list (list Point)) : list (list Point) :=
  imap (fun n => fmap (view_map c kwargs n)) world.

Definition verts_ndc_of (c : Cameras) (kwargs : Kwargs)
  (world : list (list Point)) : list (list Point) :=
  imap (fun n => fmap (splice_point (ndc_map c kwargs) n))
       (verts_view_of c kwargs world).

(** The camera count fits a batch of [n] meshes. *)
Definition count_ok (c : Cameras) (n : nat) : Prop :=
  cameras_len c = 1 \/ cameras_len c = n.

(** The store after an accepted [transform]: the view-space tensor, the
    NDC tensor with the view-space depth, and the new batch. *)
Definition heap_after_transform (h : gmap loc object) (c : Cameras)
  (kwargs : Kwargs) (f : loc) (world : list (list Point))
  : loc * loc * gmap loc object :=
  let l1 := fresh (dom h) in
  let h1 := <[l1 := OVerts (verts_view_of c kwargs world)]> h in
  let l2 := fresh (dom h1) in
  let h2 := <[l2 := OVerts (verts_ndc_of c kwargs world)]> h1 in
  let l3 := fresh (dom h2) in
  (l3, l2, <[l3 := OMeshes l2 f]> h2).

(** [min()] is not asked of an empty tensor: the clip depth is set, or
    [get_znear()] is not a tensor without elements. *)
Definition min_defined (rs : RasterizationSettings) (c : Cameras) : bool :=
  match z_clip_value rs, get_znear c with
  | None, ZnearTensor [] => false
  | _, _ => true
  end.

(** The arguments [rasterize_meshes] is to get for the settings [rs], the
    cameras [c] and the projected batch [meshes_proj], written from the
    fields of the settings and the answers of the cameras. *)
Definition raster_call_of (rs : RasterizationSettings) (c : Cameras)
  (meshes_proj : loc) : RasterCall :=
  let perspective :=
    match perspective_correct rs with
    | Some b => b
    | None => is_perspective c
    end in
  {| rc_meshes := meshes_proj;
     rc_image_size := image_size rs;
     rc_blur_radius := blur_radius rs;
     rc_faces_per_pixel := faces_per_pixel rs;
     rc_bin_size := bin_size rs;
     rc_max_faces_per_bin := max_faces_per_bin rs;
     rc_clip_barycentric_coords :=
       match clip_barycentric_coords rs with
       | Some b => b
       | None => PrimFloat.ltb 0%float (blur_radius rs)
       end;
     rc_perspective_correct := perspective;
     rc_cull_backfaces := cull_backfaces rs;
     rc_z_clip_value :=
       match z_clip_value rs with
       | Some z => Some z
       | None =>
           if perspective then
             match get_znear c with
             | ZnearNone => None
             | ZnearFloat z => Some (PrimFloat.div z 2%float)
             | ZnearTensor t => Some (PrimFloat.div (tensor_min t) 2%float)
             end
           else None
       end;
     rc_cull_to_frustum := cull_to_frustum rs |}.

(** The five outputs, packaged. *)
Definition fragments_of (r : Tensor * Tensor * Tensor * Tensor * Tensor)
  : Fragments :=
  let '(a, b, c, d, e) := r in
  {| pix_to_face := a; zbuf := b; bary_coords := c; dists := d;
     back_faces := e |}.

(** ** Frames *)

(** [s] keeps what [s0] had: the same calls of [rasterize_meshes], and
    every object of the store of [s0], unchanged. *)
Definition frames (s0 s : state) : Prop :=
  calls s = calls s0
  /\ dom (heap s0) ⊆ dom (heap s)
  /\ forall l, l ∈ dom (heap s0) -> heap s !! l = heap s0 !! l.

(** The computation [m] keeps what [s0] had, and a value it returns
    satisfies [Q]. *)
Definition safe {A} (s0 : state) (m : M A) (Q : A -> Prop) : Prop :=
  forall s, frames s0 s ->
            frames s0 (m s).2 /\ forall a, (m s).1 = inr a -> Q a.

End Rasterizer.

Arguments Cameras : clear implicits.
Arguments Kwargs : clear implicits.
Arguments MeshRasterizer : clear implicits.
Arguments Fragments : clear implicits.

(** ** A concrete scene *)

(** Transforms as functions of the batch index and the point. *)
Definition FnTransform : Type := option float -> nat -> Point -> Point.

#[global] Instance FnTransform3d : Transform3d FnTransform := {|
  compose a b := fun eps n p => b eps n (a eps n p);
  transform_point t := t
|}.

(** The camera looks along z from three units behind the origin. *)
Definition ex_world_to_view : FnTransform :=
  fun _ _ p => {| px := px p; py := py p; pz := (pz p + 3)%float |}.

Definition ex_projection : FnTransform :=
  fun _ _ p =>
    {| px := (px p / pz p)%float; py := (py p / pz p)%float;
       pz := (1 / pz p)%float |}.

Definition ex_to_ndc : FnTransform :=
  fun _ _ p => {| px := (- px p)%float; py := (- py p)%float; pz := pz p |}.

Definition ex_cameras (n : nat) : Cameras FnTransform unit :=
  {| cameras_len := n;
     get_world_to_view_transform := fun _ => ex_world_to_view;
     get_ndc_camera_transform := fun _ => ex_to_ndc;
     get_projection_transform := fun _ => ex_projection;
     is_perspective := true;
     get_znear := ZnearTensor [1%float; 0.5%float] |}.

(** Two meshes of one triangle each. *)
Definition ex_world : list (list Point) :=
  [ [ mkPoint 0 0 1; mkPoint 2 0 1; mkPoint 0 2 1 ];
    [ mkPoint 1 1 0; mkPoint (-1) 1 0; mkPoint 0 (-1) 0 ] ]%float.

Definition ex_faces : list (list Face) :=
  [ [ mkFace 0 1 2 ]; [ mkFace 0 1 2 ] ]%Z.

Definition ex_settings : RasterizationSettings :=
  {| image_size := SizeHW 4 4;
     blur_radius := 0.5%float;
     faces_per_pixel := 1;
     bin_size := Some 0%Z;
     max_faces_per_bin := None;
     perspective_correct := None;
     clip_barycentric_coords := None;
     cull_backfaces := false;
     z_clip_value := None;
     cull_to_frustum := false |}.

(** The store: vertex tensor, face tensor, mesh batch, settings. *)
Definition ex_heap : gmap loc object :=
  <[4%positive := OSettings ex_settings]>
    (<[3%positive := OMeshes 1%positive 2%positive]>
       (<[2%positive := OFaces ex_faces]>
          (<[1%positive := OVerts ex_world]> ∅))).

Definition ex_state : state := {| heap := ex_heap; calls := [] |}.

Definition ex_self (n : nat) : MeshRasterizer FnTransform unit :=
  {| self_cameras := Some (ex_cameras n); self_raster_settings := 4%positive |}.

Definition ex_self_no_cameras : MeshRasterizer FnTransform unit :=
  {| self_cameras := None; self_raster_settings := 4%positive |}.

Definition ex_kwargs : Kwargs FnTransform unit :=
  {| kw_cameras := None; kw_raster_settings := None; kw_eps := None;
     kw_rest := tt |}.

(** The same call with both keywords given. *)
Definition ex_kwargs_override : Kwargs FnTransform unit :=
  {| kw_cameras := Some (Some (ex_cameras 1));
     kw_raster_settings := Some (Some 4%positive);
     kw_eps := None; kw_rest := tt |}.

(** The same call with an explicit [raster_settings=None]. *)
Definition ex_kwargs_settings_none : Kwargs FnTransform unit :=
  {| kw_cameras := None; kw_raster_settings := Some None; kw_eps := None;
     kw_rest := tt |}.

(** An orthographic camera whose near-plane distance is a number, and one
    that has none. *)
Definition ex_cameras_ortho : Cameras FnTransform unit :=
  {| cameras_len := 1;
     get_world_to_view_transform := fun _ => ex_world_to_view;
     get_ndc_camera_transform := fun _ => ex_to_ndc;
     get_projection_transform := fun _ => ex_to_ndc;
     is_perspective := false;
     get_znear := ZnearFloat 0.5%float |}.

Definition ex_cameras_no_znear : Cameras FnTransform unit :=
  {| cameras_len := 1;
     get_world_to_view_transform := fun _ => ex_world_to_view;
     get_ndc_camera_transform := fun _ => ex_to_ndc;
     get_projection_transform := fun _ => ex_projection;
     is_perspective := true;
     get_znear := ZnearNone |}.

(** The settings of the scene with perspective correction switched off,
    and switched on, in the place of the settings of the scene. *)
Definition ex_settings_flat : RasterizationSettings :=
  {| image_size := SizeHW 4 4;
     blur_radius := 0.5%float;
     faces_per_pixel := 1;
     bin_size := Some 0%Z;
     max_faces_per_bin := None;
     perspective_correct := Some false;
     clip_barycentric_coords := None;
     cull_backfaces := false;
     z_clip_value := None;
     cull_to_frustum := false |}.

Definition ex_state_flat : state :=
  {| heap := <[4%positive := OSettings ex_settings_flat]> ex_heap;
     calls := [] |}.

Definition ex_settings_forced : RasterizationSettings :=
  {| image_size := SizeHW 4 4;
     blur_radius := 0.5%float;
     faces_per_pixel := 1;
     bin_size := Some 0%Z;
     max_faces_per_bin := None;
     perspective_correct := Some true;
     clip_barycentric_coords := None;
     cull_backfaces := false;
     z_clip_value := None;
     cull_to_frustum := false |}.

Definition ex_state_forced : state :=
  {| heap := <[4%positive := OSettings ex_settings_forced]> ex_heap;
     calls := [] |}.

(** An empty scene: a batch of no meshes, the default settings, and an
    orthographic bundle of no cameras, whose [znear] tensor has no
    element. *)
Definition ex_no_cameras : Cameras FnTransform unit :=
  {| cameras_len := 0;
     get_world_to_view_transform := fun _ => ex_world_to_view;
     get_ndc_camera_transform := fun _ => ex_to_ndc;
     get_projection_transform := fun _ => ex_to_ndc;
     is_perspective := false;
     get_znear := ZnearTensor [] |}.

Definition ex_empty_state : state :=
  {| heap :=
       <[4%positive := OSettings default_settings]>
         (<[3%positive := OMeshes 1%positive 2%positive]>
            (<[2%positive := OFaces []]>
               (<[1%positive := OVerts []]> ∅)));
     calls := [] |}.

Definition ex_self_empty : MeshRasterizer FnTransform unit :=
  {| self_cameras := Some ex_no_cameras; self_raster_settings := 4%positive |}.

(** A reduction for [Tensor.min()]: a NaN operand is the result, otherwise
    the smaller operand, the later one when the two compare equal. *)
Definition min_step (acc x : float) : float :=
  if PrimFloat.is_nan acc then acc
  else if PrimFloat.is_nan x then x
  else if PrimFloat.ltb acc x then acc else x.

Definition min_reduce (t : list float) : float :=
  match t with
  | [] => nan
  | a :: l => foldl min_step a l
  end.

(** A stand-in for [rasterize_meshes]: it fails on a bin capacity of zero
    and otherwise returns five labelled outputs. *)
#[global] Instance ex_rasterize : Rasterize Z := fun h c =>
  match rc_max_faces_per_bin c with
  | Some 0%Z => inl (ValueError "bin size too small")
  | _ => inr (10, 20, 30, 40, 50)%Z
  end.

(** * Properties *)

Section Properties.

Context {T : Type} `{Transform3d T} {KwRest Tensor : Type} `{Rasterize Tensor}.
Context `{TensorMin}.

Implicit Types (self : MeshRasterizer T KwRest) (kwargs : Kwargs T KwRest).
Implicit Types (c : Cameras T KwRest) (s st : state) (h : gmap loc object).
Implicit Types (rs : RasterizationSettings) (world : list (list Point)).

(** ** Reasoning about computations *)

Lemma bind_inr {A B} (m : M A) (k : A -> M B) s a s' :
  m s = (inr a, s') -> (m ≫= k) s = k a s'.
Proof. intros E. unfold mbind, M_bind, bind. now rewrite E. Qed.

Lemma bind_inl {A B} (m : M A) (k : A -> M B) s e s' :
  m s = (inl e, s') -> (m ≫= k) s = (inl e, s').
Proof. intros E. unfold mbind, M_bind, bind. now rewrite E. Qed.

Lemma read_verts_ok s l v :
  heap s !! l = Some (OVerts v) -> read_verts l s = (inr v, s).
Proof.
  intros E. unfold read_verts.
  rewrite (bind_inr _ _ s (OVerts v) s); [done|].
  unfold read. now rewrite E.
Qed.

Lemma read_settings_ok s l rs :
  heap s !! l = Some (OSettings rs) -> read_settings l s = (inr rs, s).
Proof.
  intros E. unfold read_settings.
  rewrite (bind_inr _ _ s (OSettings rs) s); [done|].
  unfold read. now rewrite E.
Qed.

Lemma verts_padded_ok s m v f :
  heap s !! m = Some (OMeshes v f) -> verts_padded m s = (inr v, s).
Proof.
  intros E. unfold verts_padded.
  rewrite (bind_inr _ _ s (OMeshes v f) s); [done|].
  unfold read. now rewrite E.
Qed.

Lemma meshes_len_ok s m v f world :
  heap s !! m = Some (OMeshes v f) ->
  heap s !! v = Some (OVerts world) ->
  meshes_len m s = (inr (length world), s).
Proof.
  intros Em Ev. unfold meshes_len.
  rewrite (bind_inr _ _ _ _ _ (verts_padded_ok _ _ _ _ Em)).
  now rewrite (bind_inr _ _ _ _ _ (read_verts_ok _ _ _ Ev)).
Qed.

Lemma fresh_not_in (h : gmap loc object) l o :
  h !! l = Some o -> fresh (dom h) ≠ l.
Proof.
  intros E Heq. pose proof (is_fresh (dom h)) as Hf.
  rewrite Heq in Hf. apply Hf, elem_of_dom. eauto.
Qed.

(** ** The spliced tensor *)

Lemma zip_exact_fmap_row (g : Point -> Point) (row : list Point) :
  zip_exact (fun d q => Some {| px := px d; py := py d; pz := pz q |})
    (g <$> row) row
  = Some ((fun p => {| px := px (g p); py := py (g p); pz := pz p |}) <$> row).
Proof.
  induction row as [|p row IH]; [done|].
  cbn. cbn in IH. now rewrite IH.
Qed.

Lemma splice_z_imap (g : nat -> Point -> Point) (view : list (list Point)) :
  splice_z (imap (fun n => fmap (g n)) view) view
  = Some (imap (fun n => fmap (splice_point g n)) view).
Proof.
  unfold splice_z. revert g.
  induction view as [|row view IH]; intros g; [done|].
  cbn. rewrite zip_exact_fmap_row.
  unfold Basics.compose. cbv beta.
  specialize (IH (fun n => g (S n))). cbv beta in IH.
  rewrite IH. reflexivity.
Qed.

Lemma transform_points_ok s t l eps pts :
  heap s !! l = Some (OVerts pts) ->
  transform_points t l eps s
  = (inr (fresh (dom (heap s))),
     {| heap := <[fresh (dom (heap s)) :=
                    OVerts (imap (fun n => fmap (transform_point t eps n)) pts)]>
                  (heap s);
        calls := calls s |}).
Proof.
  intros E. unfold transform_points.
  now rewrite (bind_inr _ _ _ _ _ (read_verts_ok _ _ _ E)).
Qed.

Lemma setitem_z_ok s dst src d sv r :
  heap s !! dst = Some (OVerts d) ->
  heap s !! src = Some (OVerts sv) ->
  splice_z d sv = Some r ->
  setitem_z dst src s
  = (inr tt, {| heap := <[dst := OVerts r]> (heap s); calls := calls s |}).
Proof.
  intros Ed Es Er. unfold setitem_z.
  rewrite (bind_inr _ _ _ _ _ (read_verts_ok _ _ _ Ed)).
  rewrite (bind_inr _ _ _ _ _ (read_verts_ok _ _ _ Es)).
  now rewrite Er.
Qed.

Lemma update_padded_ok s m v f new_verts :
  heap s !! m = Some (OMeshes v f) ->
  update_padded m new_verts s
  = (inr (fresh (dom (heap s))),
     {| heap := <[fresh (dom (heap s)) := OMeshes new_verts f]> (heap s);
        calls := calls s |}).
Proof.
  intros E. unfold update_padded.
  rewrite (bind_inr _ _ s (OMeshes v f) s); [done|].
  unfold read. now rewrite E.
Qed.

(** ** What [transform] computes *)

Lemma transform_missing self meshes_world kwargs s :
  cameras_of self kwargs = None ->
  transform self meshes_world kwargs s
  = (inl (ValueError msg_cameras_missing), s).
Proof. unfold cameras_of, transform. now intros ->. Qed.

Lemma transform_mismatch self meshes_world kwargs s c v f world :
  cameras_of self kwargs = Some c ->
  heap s !! meshes_world = Some (OMeshes v f) ->
  heap s !! v = Some (OVerts world) ->
  ~ count_ok c (length world) ->
  transform self meshes_world kwargs s
  = (inl (ValueError (msg_wrong_number (cameras_len c) (length world))), s).
Proof.
  unfold cameras_of, transform, count_ok. intros -> Em Ev Hn.
  rewrite bool_decide_eq_true_2 by tauto.
  rewrite (bind_inr _ _ s true s).
  - now rewrite (bind_inr _ _ _ _ _ (meshes_len_ok _ _ _ _ _ Em Ev)).
  - rewrite (bind_inr _ _ _ _ _ (meshes_len_ok _ _ _ _ _ Em Ev)).
    rewrite bool_decide_eq_true_2 by tauto. reflexivity.
Qed.

Lemma transform_accepted self meshes_world kwargs s c v f world :
  cameras_of self kwargs = Some c ->
  heap s !! meshes_world = Some (OMeshes v f) ->
  heap s !! v = Some (OVerts world) ->
  count_ok c (length world) ->
  transform self meshes_world kwargs s
  = (inr (heap_after_transform (heap s) c kwargs f world).1.1,
     {| heap := (heap_after_transform (heap s) c kwargs f world).2;
        calls := calls s |}).
Proof.
  unfold cameras_of, transform, count_ok. intros -> Em Ev Hn.
  rewrite (bind_inr _ _ s false s).
  2:{ destruct (bool_decide (cameras_len c ≠ 1)) eqn:E1; [|reflexivity].
      rewrite (bind_inr _ _ _ _ _ (meshes_len_ok _ _ _ _ _ Em Ev)).
      apply bool_decide_eq_true_1 in E1.
      rewrite bool_decide_eq_false_2; [reflexivity|]. intros ?. tauto. }
  rewrite (bind_inr _ _ _ _ _ (verts_padded_ok _ _ _ _ Em)).
  rewrite (bind_inr _ _ _ _ _ (transform_points_ok _ _ _ _ _ Ev)).
  set (l1 := fresh (dom (heap s))).
  set (view := imap _ world).
  set (s1 := {| heap := <[l1 := OVerts view]> (heap s); calls := calls s |}).
  assert (E1 : heap s1 !! l1 = Some (OVerts view)) by apply lookup_insert_eq.
  rewrite (bind_inr _ _ _ _ _ (transform_points_ok _ _ _ _ _ E1)).
  set (l2 := fresh (dom (heap s1))).
  set (ndc := imap _ view).
  set (s2 := {| heap := <[l2 := OVerts ndc]> (heap s1); calls := calls s1 |}).
  assert (Hl2 : l2 ≠ l1) by (eapply fresh_not_in; exact E1).
  assert (E2 : heap s2 !! l2 = Some (OVerts ndc)) by apply lookup_insert_eq.
  assert (E1' : heap s2 !! l1 = Some (OVerts view)).
  { cbn. rewrite lookup_insert_ne by done. exact E1. }
  rewrite (bind_inr _ _ _ _ _
             (setitem_z_ok _ _ _ _ _ _ E2 E1' (splice_z_imap _ view))).
  cbn [heap calls s2]. rewrite insert_insert_eq.
  assert (Hm1 : l1 ≠ meshes_world) by (eapply fresh_not_in; exact Em).
  assert (Hm2 : l2 ≠ meshes_world).
  { eapply fresh_not_in. cbn. rewrite lookup_insert_ne by done. exact Em. }
  erewrite update_padded_ok.
  2:{ cbn. rewrite !lookup_insert_ne by done. exact Em. }
  reflexivity.
Qed.

Lemma heap_after_transform_facts h c kwargs f world :
  let '(m', v', h') := heap_after_transform h c kwargs f world in
  (m' ∉ dom h) /\ (v' ∉ dom h) /\ m' ≠ v' /\
  h' !! m' = Some (OMeshes v' f) /\
  h' !! v' = Some (OVerts (verts_ndc_of c kwargs world)) /\
  (forall l, l ∈ dom h -> h' !! l = h !! l).
Proof.
  unfold heap_after_transform.
  set (l1 := fresh (dom h)).
  set (h1 := <[l1 := _]> h).
  set (l2 := fresh (dom h1)).
  set (h2 := <[l2 := _]> h1).
  set (l3 := fresh (dom h2)).
  assert (F1 : l1 ∉ dom h) by apply is_fresh.
  assert (F2 : l2 ∉ dom h1) by apply is_fresh.
  assert (F3 : l3 ∉ dom h2) by apply is_fresh.
  unfold h2, h1 in F3. unfold h1 in F2.
  rewrite !dom_insert_L in F3. rewrite dom_insert_L in F2.
  apply not_elem_of_union in F3 as [F32 F3].
  apply not_elem_of_union in F3 as [F31 F3].
  apply not_elem_of_union in F2 as [F21 F2].
  apply not_elem_of_singleton in F32, F31, F21.
  repeat split; try done.
  - apply lookup_insert_eq.
  - rewrite lookup_insert_ne by done. apply lookup_insert_eq.
  - intros l Hl.
    assert (l3 ≠ l /\ l2 ≠ l /\ l1 ≠ l) as (? & ? & ?)
      by (repeat split; intros ->; contradiction).
    rewrite lookup_insert_ne by done.
    unfold h2. rewrite lookup_insert_ne by done.
    unfold h1. now rewrite lookup_insert_ne by done.
Qed.

(** ** What [forward] computes *)

Lemma forward_missing self meshes_world kwargs s :
  cameras_of self kwargs = None ->
  forward self meshes_world kwargs s
  = (inl (ValueError msg_cameras_missing), s).
Proof.
  intros Hc. unfold forward.
  now rewrite (bind_inl _ _ _ _ _ (transform_missing _ meshes_world _ s Hc)).
Qed.

Lemma forward_mismatch self meshes_world kwargs s c v f world :
  cameras_of self kwargs = Some c ->
  heap s !! meshes_world = Some (OMeshes v f) ->
  heap s !! v = Some (OVerts world) ->
  ~ count_ok c (length world) ->
  forward self meshes_world kwargs s
  = (inl (ValueError (msg_wrong_number (cameras_len c) (length world))), s).
Proof.
  intros Hc Em Ev Hn. unfold forward.
  now rewrite (bind_inl _ _ _ _ _
                 (transform_mismatch _ _ _ _ _ _ _ _ Hc Em Ev Hn)).
Qed.

(** The resolution of the clip depth gives what [raster_call_of] says,
    when [min()] is defined. *)
Lemma resolve_z_clip_defined rs c m :
  min_defined rs c = true ->
  resolve_z_clip rs c (resolve_perspective_correct rs c)
  = inr (rc_z_clip_value (raster_call_of rs c m)).
Proof.
  unfold min_defined, resolve_z_clip, resolve_perspective_correct,
    raster_call_of, znear_item. cbn.
  destruct (z_clip_value rs) as [z|]; [reflexivity|].
  destruct (get_znear c) as [|z|[|a t]]; try discriminate; intros _;
    now destruct (match perspective_correct rs with
                  | Some b => b
                  | None => is_perspective c
                  end).
Qed.

Lemma resolve_z_clip_undefined rs c p :
  min_defined rs c = false ->
  exists msg, resolve_z_clip rs c p = inl (RuntimeError msg).
Proof.
  unfold min_defined, resolve_z_clip, znear_item.
  destruct (z_clip_value rs) as [z|]; [discriminate|].
  destruct (get_znear c) as [|z|[|a t]]; try discriminate. eauto.
Qed.

Lemma forward_accepted self meshes_world kwargs s c v f world ls rs :
  cameras_of self kwargs = Some c ->
  heap s !! meshes_world = Some (OMeshes v f) ->
  heap s !! v = Some (OVerts world) ->
  count_ok c (length world) ->
  settings_of self kwargs = Some ls ->
  heap s !! ls = Some (OSettings rs) ->
  min_defined rs c = true ->
  let '(m', _, h') := heap_after_transform (heap s) c kwargs f world in
  let call := raster_call_of rs c m' in
  forward self meshes_world kwargs s
  = (match rasterize_meshes_impl h' call with
     | inl e => inl e
     | inr r => inr (fragments_of r)
     end,
     {| heap := h'; calls := calls s ++ [call] |}).
Proof.
  intros Hc Em Ev Hn Hs Els Hd.
  pose proof (heap_after_transform_facts (heap s) c kwargs f world) as HF.
  pose proof (transform_accepted _ _ _ _ _ _ _ _ Hc Em Ev Hn) as HT.
  destruct (heap_after_transform (heap s) c kwargs f world) as [[m' v'] h'].
  destruct HF as (_ & _ & _ & _ & _ & Hframe).
  cbn [fst snd] in HT. unfold forward.
  rewrite (bind_inr _ _ _ _ _ HT).
  fold (settings_of self kwargs). rewrite Hs.
  erewrite bind_inr.
  2:{ apply read_settings_ok. cbn [heap].
      rewrite Hframe by (apply elem_of_dom; eauto). exact Els. }
  fold (cameras_of self kwargs). rewrite Hc.
  rewrite (resolve_z_clip_defined rs c m' Hd).
  unfold mbind, M_bind, bind, lift_exn, rasterize_meshes. cbn [heap calls].
  change {| rc_meshes := m';
            rc_image_size := image_size rs;
            rc_blur_radius := blur_radius rs;
            rc_faces_per_pixel := faces_per_pixel rs;
            rc_bin_size := bin_size rs;
            rc_max_faces_per_bin := max_faces_per_bin rs;
            rc_clip_barycentric_coords := resolve_clip_barycentric_coords rs;
            rc_perspective_correct := resolve_perspective_correct rs c;
            rc_cull_backfaces := cull_backfaces rs;
            rc_z_clip_value := rc_z_clip_value (raster_call_of rs c m');
            rc_cull_to_frustum := cull_to_frustum rs |}
    with (raster_call_of rs c m').
  destruct (rasterize_meshes_impl h' (raster_call_of rs c m'))
    as [e|[[[[a b] c0] d] e]]; reflexivity.
Qed.

(** When [min()] is asked of an empty tensor, [forward] raises after
    [transform], without a call. *)
Lemma forward_min_undefined self meshes_world kwargs s c v f world ls rs :
  cameras_of self kwargs = Some c ->
  heap s !! meshes_world = Some (OMeshes v f) ->
  heap s !! v = Some (OVerts world) ->
  count_ok c (length world) ->
  settings_of self kwargs = Some ls ->
  heap s !! ls = Some (OSettings rs) ->
  min_defined rs c = false ->
  exists msg m' st,
    transform self meshes_world kwargs s = (inr m', st)
    /\ calls st = calls s
    /\ (forall l, l ∈ dom (heap s) -> heap st !! l = heap s !! l)
    /\ forward self meshes_world kwargs s = (inl (RuntimeError msg), st).
Proof.
  intros Hc Em Ev Hn Hs Els Hd.
  pose proof (heap_after_transform_facts (heap s) c kwargs f world) as HF.
  pose proof (transform_accepted _ _ _ _ _ _ _ _ Hc Em Ev Hn) as HT.
  destruct (heap_after_transform (heap s) c kwargs f world) as [[m' v'] h'].
  destruct HF as (_ & _ & _ & _ & _ & Hframe).
  cbn [fst snd] in HT.
  destruct (resolve_z_clip_undefined rs c (resolve_perspective_correct rs c) Hd)
    as [msg Hmsg].
  exists msg, m'. eexists. split; [exact HT|].
  split; [reflexivity|]. split; [exact Hframe|].
  unfold forward.
  rewrite (bind_inr _ _ _ _ _ HT).
  fold (settings_of self kwargs). rewrite Hs.
  erewrite bind_inr.
  2:{ apply read_settings_ok. cbn [heap].
      rewrite Hframe by (apply elem_of_dom; eauto). exact Els. }
  fold (cameras_of self kwargs). rewrite Hc, Hmsg. reflexivity.
Qed.

Lemma lookup_verts_ndc_of c kwargs world n i :
  (verts_ndc_of c kwargs world !! n ≫= (.!! i))
  = (fun p => splice_point (ndc_map c kwargs) n (view_map c kwargs n p))
      <$> (world !! n ≫= (.!! i)).
Proof.
  unfold verts_ndc_of, verts_view_of.
  rewrite !list_lookup_imap.
  destruct (world !! n) as [row|]; [|reflexivity].
  cbn. rewrite !list_lookup_fmap.
  now destruct (row !! i).
Qed.

(** What an accepted call of [forward] does, in one statement. *)
Lemma forward_accepted_call self meshes_world kwargs s c v f world ls rs :
  cameras_of self kwargs = Some c ->
  heap s !! meshes_world = Some (OMeshes v f) ->
  heap s !! v = Some (OVerts world) ->
  count_ok c (length world) ->
  settings_of self kwargs = Some ls ->
  heap s !! ls = Some (OSettings rs) ->
  min_defined rs c = true ->
  exists m' st s',
    transform self meshes_world kwargs s = (inr m', st) /\
    heap s' = heap st /\
    (forall l, l ∈ dom (heap s) -> heap s' !! l = heap s !! l) /\
    calls s' = calls s ++ [raster_call_of rs c m'] /\
    forward self meshes_world kwargs s
    = (match rasterize_meshes_impl (heap st) (raster_call_of rs c m') with
       | inl e => inl e
       | inr r => inr (fragments_of r)
       end, s').
Proof.
  intros Hc Em Ev Hn Hs Els Hd.
  pose proof (forward_accepted _ _ _ _ _ _ _ _ _ _ Hc Em Ev Hn Hs Els Hd)
    as HF.
  pose proof (transform_accepted _ _ _ _ _ _ _ _ Hc Em Ev Hn) as HT.
  pose proof (heap_after_transform_facts (heap s) c kwargs f world) as HH.
  destruct (heap_after_transform (heap s) c kwargs f world) as [[m' v'] h'].
  destruct HH as (_ & _ & _ & _ & _ & Hframe).
  eexists m', _, _. split; [exact HT|].
  split; [|split; [|split; [|exact HF]]]; cbn [heap calls snd]; done.
Qed.

(** ** The order of floats *)

(** Case analysis on the integer comparisons inside [SFcompare]. *)
Ltac cmp_cases :=
  repeat match goal with
  | |- context [Pos.compare_cont Eq ?a ?b] =>
      change (Pos.compare_cont Eq a b) with (Pos.compare a b)
  | H : context [Pos.compare_cont Eq ?a ?b] |- _ =>
      change (Pos.compare_cont Eq a b) with (Pos.compare a b) in H
  end;
  repeat match goal with
  | H : context [Z.compare ?a ?b] |- _ => destruct (Z.compare_spec a b)
  | |- context [Z.compare ?a ?b] => destruct (Z.compare_spec a b)
  | H : context [Pos.compare ?a ?b] |- _ => destruct (Pos.compare_spec a b)
  | |- context [Pos.compare ?a ?b] => destruct (Pos.compare_spec a b)
  end;
  cbn in *; try congruence; try lia.

Lemma SFltb_irrefl x : SFltb x x = false.
Proof.
  unfold SFltb.
  destruct x as [[]|[]| |[] m e]; cbn; try reflexivity; cmp_cases.
Qed.

Lemma SFltb_trans x y z :
  SFltb x y = true -> SFltb y z = true -> SFltb x z = true.
Proof.
  unfold SFltb.
  destruct x as [[]|[]| |[] m1 e1], y as [[]|[]| |[] m2 e2],
           z as [[]|[]| |[] m3 e3];
    cbn; try congruence; intros; cmp_cases.
Qed.

(** A number that is not NaN lies on one side of every strict pair. *)
Lemma SFltb_between x y z :
  y ≠ S754_nan -> SFltb x z = true -> SFltb x y = false ->
  SFltb y z = true.
Proof.
  unfold SFltb.
  destruct x as [[]|[]| |[] m1 e1], y as [[]|[]| |[] m2 e2],
           z as [[]|[]| |[] m3 e3];
    cbn; try congruence; intros; cmp_cases.
Qed.


Lemma SFeqb_refl_false x : SFeqb x x = false -> x = S754_nan.
Proof.
  unfold SFeqb.
  destruct x as [[]|[]| |[] m e]; cbn; try congruence; cmp_cases.
Qed.

Lemma SFltb_nan_r x : SFltb x S754_nan = false.
Proof. now destruct x as [[]|[]| |[] m e]. Qed.

Lemma is_nan_true a : PrimFloat.is_nan a = true -> Prim2SF a = S754_nan.
Proof.
  unfold PrimFloat.is_nan. rewrite FloatAxioms.eqb_spec. intros E.
  apply SFeqb_refl_false. now destruct (SFeqb _ _).
Qed.

Lemma is_nan_false a : PrimFloat.is_nan a = false -> Prim2SF a ≠ S754_nan.
Proof.
  unfold PrimFloat.is_nan. rewrite FloatAxioms.eqb_spec. intros E Hn.
  rewrite Hn in E. discriminate.
Qed.

Lemma ltb_nan_r x a : PrimFloat.is_nan a = true -> PrimFloat.ltb x a = false.
Proof.
  intros E. rewrite FloatAxioms.ltb_spec, (is_nan_true _ E). apply SFltb_nan_r.
Qed.

Lemma ltb_irrefl a : PrimFloat.ltb a a = false.
Proof. rewrite FloatAxioms.ltb_spec. apply SFltb_irrefl. Qed.

(** ** [Tensor.min()] *)


(** The reduction [min_reduce] keeps the contract of [Tensor.min()]. *)

Lemma min_step_cases a b : min_step a b = a \/ min_step a b = b.
Proof.
  unfold min_step.
  destruct (PrimFloat.is_nan a), (PrimFloat.is_nan b), (PrimFloat.ltb a b);
    tauto.
Qed.

Lemma foldl_min_step_nan a l :
  PrimFloat.is_nan a = true -> foldl min_step a l = a.
Proof.
  intros E. induction l as [|b l IH]; [done|].
  cbn. unfold min_step at 2. now rewrite E.
Qed.

Lemma foldl_min_step_elem a l : foldl min_step a l ∈ a :: l.
Proof.
  revert a. induction l as [|b l IH]; intros a; cbn.
  - apply elem_of_cons. now left.
  - specialize (IH (min_step a b)).
    apply elem_of_cons in IH as [IH|IH].
    + rewrite IH.
      destruct (min_step_cases a b) as [E|E]; rewrite E; rewrite !elem_of_cons;
        auto.
    + rewrite !elem_of_cons. auto.
Qed.

(** No operand of the reduction is below its result. *)
Lemma foldl_min_step_lower a l x :
  x ∈ a :: l -> PrimFloat.ltb x (foldl min_step a l) = false.
Proof.
  revert a x. induction l as [|b l IH]; intros a x Hx; cbn.
  - apply list_elem_of_singleton in Hx as ->. apply ltb_irrefl.
  - destruct (PrimFloat.is_nan a) eqn:Ea.
    { replace (min_step a b) with a by (unfold min_step; now rewrite Ea).
      rewrite foldl_min_step_nan by done. now apply ltb_nan_r. }
    destruct (PrimFloat.is_nan b) eqn:Eb.
    { replace (min_step a b) with b by (unfold min_step; now rewrite Ea, Eb).
      rewrite foldl_min_step_nan by done. now apply ltb_nan_r. }
    assert (Hm : min_step a b = if PrimFloat.ltb a b then a else b)
      by (unfold min_step; now rewrite Ea, Eb).
    set (m := foldl min_step (min_step a b) l).
    assert (Hacc : PrimFloat.ltb (min_step a b) m = false)
      by (apply IH, elem_of_cons; now left).
    assert (Htl : forall y, y ∈ l -> PrimFloat.ltb y m = false)
      by (intros y Hy; apply IH, elem_of_cons; now right).
    apply is_nan_false in Ea, Eb.
    rewrite Hm in Hacc. rewrite !FloatAxioms.ltb_spec in *.
    apply elem_of_cons in Hx as [->|Hx];
      [|apply elem_of_cons in Hx as [->|Hx];
        [|rewrite <- FloatAxioms.ltb_spec; auto]].
    + destruct (SFltb (Prim2SF a) (Prim2SF b)) eqn:Eab; [done|].
      destruct (SFltb (Prim2SF a) (Prim2SF m)) eqn:Eam; [|done].
      now rewrite (SFltb_between _ _ _ Eb Eam Eab) in Hacc.
    + destruct (SFltb (Prim2SF a) (Prim2SF b)) eqn:Eab; [|done].
      destruct (SFltb (Prim2SF b) (Prim2SF m)) eqn:Ebm; [|done].
      now rewrite (SFltb_trans _ _ _ Eab Ebm) in Hacc.
Qed.

Lemma min_reduce_elem t : t <> [] -> min_reduce t ∈ t.
Proof. destruct t as [|a l]; [done|]. intros _. apply foldl_min_step_elem. Qed.

Lemma min_reduce_lower t x :
  x ∈ t -> PrimFloat.ltb x (min_reduce t) = false.
Proof.
  destruct t as [|a l]; [intros Hx; inversion Hx|].
  apply foldl_min_step_lower.
Qed.

(** ** Properties of [transform] and [forward] *)

(** C1: for every mesh batch and camera bundle that [transform] accepts,
    the call returns a batch whose vertex tensor has the shape of the
    input's, and whose vertex [(n, i)] has as z the z of the view-space
    point (the world-to-view transform of the input vertex alone) and as
    x and y those of the composed projection-then-NDC transform applied to
    that view-space point. *)
Theorem transform_keeps_view_depth self meshes_world kwargs s c v f world :
  cameras_of self kwargs = Some c ->
  heap s !! meshes_world = Some (OMeshes v f) ->
  heap s !! v = Some (OVerts world) ->
  count_ok c (length world) ->
  exists m' v' ndc s',
    transform self meshes_world kwargs s = (inr m', s') /\
    heap s' !! m' = Some (OMeshes v' f) /\
    heap s' !! v' = Some (OVerts ndc) /\
    forall n i,
      (ndc !! n ≫= (.!! i))
      = (fun p =>
           let p_view :=
             transform_point
               (get_world_to_view_transform c (kw_rest kwargs))
               (kw_eps kwargs) n p in
           let p_ndc :=
             transform_point
               (compose (get_projection_transform c (kw_rest kwargs))
                        (get_ndc_camera_transform c (kw_rest kwargs)))
               (kw_eps kwargs) n p_view in
           {| px := px p_ndc; py := py p_ndc; pz := pz p_view |})
          <$> (world !! n ≫= (.!! i)).
Proof.
  intros Hc Em Ev Hn.
  pose proof (transform_accepted _ _ _ _ _ _ _ _ Hc Em Ev Hn) as HT.
  pose proof (heap_after_transform_facts (heap s) c kwargs f world) as HH.
  destruct (heap_after_transform (heap s) c kwargs f world) as [[m' v'] h'].
  destruct HH as (_ & _ & _ & Hm & Hv & _).
  exists m', v', (verts_ndc_of c kwargs world). eexists.
  split; [exact HT|]. cbn [heap snd].
  split; [exact Hm|]. split; [exact Hv|].
  intros n i. apply lookup_verts_ndc_of.
Qed.

Lemma count_ok_dec c n : {count_ok c n} + {~ count_ok c n}.
Proof.
  unfold count_ok.
  destruct (decide (cameras_len c = 1)); [left; tauto|].
  destruct (decide (cameras_len c = n)); [left; tauto|right; tauto].
Defined.

(** C2: with a camera bundle supplied, [transform] raises exactly when the
    camera count is neither 1 nor the number of meshes; [forward] then
    raises the same [ValueError], returns no fragments, and leaves the
    record of [rasterize_meshes] calls and the store as they were. *)
Theorem transform_raises_iff_count_mismatch
  self meshes_world kwargs s c v f world :
  cameras_of self kwargs = Some c ->
  heap s !! meshes_world = Some (OMeshes v f) ->
  heap s !! v = Some (OVerts world) ->
  ((exists e s', transform self meshes_world kwargs s = (inl e, s'))
   <-> (cameras_len c ≠ 1 /\ cameras_len c ≠ length world))
  /\ (cameras_len c ≠ 1 /\ cameras_len c ≠ length world ->
      exists e s',
        is_ValueError e = true /\
        transform self meshes_world kwargs s = (inl e, s') /\
        forward self meshes_world kwargs s = (inl e, s') /\
        calls s' = calls s /\ heap s' = heap s).
Proof.
  intros Hc Em Ev.
  assert (Hno : cameras_len c ≠ 1 /\ cameras_len c ≠ length world
                <-> ~ count_ok c (length world))
    by (unfold count_ok; tauto).
  split; [split|].
  - intros (e & s' & E).
    destruct (count_ok_dec c (length world)) as [Hok|Hn]; [|tauto].
    rewrite (transform_accepted _ _ _ _ _ _ _ _ Hc Em Ev Hok) in E.
    discriminate.
  - intros Hn. apply Hno in Hn. eexists _, _.
    apply (transform_mismatch _ _ _ _ _ _ _ _ Hc Em Ev Hn).
  - intros Hn. apply Hno in Hn.
    exists (ValueError (msg_wrong_number (cameras_len c) (length world))), s.
    split; [reflexivity|].
    split; [apply (transform_mismatch _ _ _ _ _ _ _ _ Hc Em Ev Hn)|].
    split; [apply (forward_mismatch _ _ _ _ _ _ _ _ Hc Em Ev Hn)|done].
Qed.

(** An accepted call whose settings in effect are [None] raises an
    [AttributeError] after [transform], without a call. *)
Lemma forward_settings_none self meshes_world kwargs s c v f world :
  cameras_of self kwargs = Some c ->
  heap s !! meshes_world = Some (OMeshes v f) ->
  heap s !! v = Some (OVerts world) ->
  count_ok c (length world) ->
  settings_of self kwargs = None ->
  exists msg st,
    forward self meshes_world kwargs s = (inl (AttributeError msg), st)
    /\ calls st = calls s.
Proof.
  intros Hc Em Ev Hn Hs.
  pose proof (transform_accepted _ _ _ _ _ _ _ _ Hc Em Ev Hn) as HT.
  eexists _, _. unfold forward.
  rewrite (bind_inr _ _ _ _ _ HT).
  fold (settings_of self kwargs). rewrite Hs.
  split; reflexivity.
Qed.

(** C3: in an accepted call of [forward], the barycentric-clamping flag
    given to [rasterize_meshes] is [blur_radius > 0.0] when the setting
    [clip_barycentric_coords] is [None], and the setting's own value when
    it is [True] or [False].  The one accepted call that does not reach
    [rasterize_meshes] asks [min()] of an empty [znear] tensor and raises
    its [RuntimeError]. *)
Theorem forward_clip_barycentric_coords
  self meshes_world kwargs s c v f world ls rs :
  cameras_of self kwargs = Some c ->
  heap s !! meshes_world = Some (OMeshes v f) ->
  heap s !! v = Some (OVerts world) ->
  count_ok c (length world) ->
  settings_of self kwargs = Some ls ->
  heap s !! ls = Some (OSettings rs) ->
  (min_defined rs c = true ->
   exists res s' call,
     forward self meshes_world kwargs s = (res, s') /\
     calls s' = calls s ++ [call] /\
     (clip_barycentric_coords rs = None ->
      rc_clip_barycentric_coords call
      = PrimFloat.ltb 0%float (blur_radius rs)) /\
     (forall b, clip_barycentric_coords rs = Some b ->
                rc_clip_barycentric_coords call = b))
  /\ (min_defined rs c = false ->
      exists msg st,
        forward self meshes_world kwargs s = (inl (RuntimeError msg), st)
        /\ calls st = calls s).
Proof.
  intros Hc Em Ev Hn Hs Els. split; intros Hd.
  - destruct (forward_accepted_call _ _ _ _ _ _ _ _ _ _
                Hc Em Ev Hn Hs Els Hd)
      as (m' & st & s' & _ & _ & _ & Hcalls & HF).
    eexists _, s', _. split; [exact HF|]. split; [exact Hcalls|].
    cbn. split; [intros ->; reflexivity|intros b ->; reflexivity].
  - destruct (forward_min_undefined _ _ _ _ _ _ _ _ _ _
                Hc Em Ev Hn Hs Els Hd)
      as (msg & m' & st & _ & Hcalls & _ & HF).
    eauto.
Qed.

(** C4: in an accepted call of [forward], the perspective-correction flag
    given to [rasterize_meshes] is the camera's [is_perspective()] when
    the setting [perspective_correct] is [None], and the setting's own
    value when it is [True] or [False].  The one accepted call that does
    not reach [rasterize_meshes] asks [min()] of an empty [znear] tensor
    and raises its [RuntimeError]. *)
Theorem forward_perspective_correct
  self meshes_world kwargs s c v f world ls rs :
  cameras_of self kwargs = Some c ->
  heap s !! meshes_world = Some (OMeshes v f) ->
  heap s !! v = Some (OVerts world) ->
  count_ok c (length world) ->
  settings_of self kwargs = Some ls ->
  heap s !! ls = Some (OSettings rs) ->
  (min_defined rs c = true ->
   exists res s' call,
     forward self meshes_world kwargs s = (res, s') /\
     calls s' = calls s ++ [call] /\
     (perspective_correct rs = None ->
      rc_perspective_correct call = is_perspective c) /\
     (forall b, perspective_correct rs = Some b ->
                rc_perspective_correct call = b))
  /\ (min_defined rs c = false ->
      exists msg st,
        forward self meshes_world kwargs s = (inl (RuntimeError msg), st)
        /\ calls st = calls s).
Proof.
  intros Hc Em Ev Hn Hs Els. split; intros Hd.
  - destruct (forward_accepted_call _ _ _ _ _ _ _ _ _ _
                Hc Em Ev Hn Hs Els Hd)
      as (m' & st & s' & _ & _ & _ & Hcalls & HF).
    eexists _, s', _. split; [exact HF|]. split; [exact Hcalls|].
    cbn. split; [intros ->; reflexivity|intros b ->; reflexivity].
  - destruct (forward_min_undefined _ _ _ _ _ _ _ _ _ _
                Hc Em Ev Hn Hs Els Hd)
      as (msg & m' & st & _ & Hcalls & _ & HF).
    eauto.
Qed.

(** C5 (amended): in an accepted call of [forward] in which
    [z_clip_value] is set or [get_znear()] is not an empty tensor, the clip
    depth given to [rasterize_meshes] is the setting [z_clip_value] when it
    is set; otherwise, when the resolved perspective flag (the setting
    [perspective_correct], or [is_perspective()] when it is [None]) is
    true, half of a number [znear] and half of the minimum of a tensor
    [znear]; otherwise [None]: an orthographic resolution or a [znear] of
    [None] gives no clipping. *)
Theorem forward_z_clip_value
  self meshes_world kwargs s c v f world ls rs :
  cameras_of self kwargs = Some c ->
  heap s !! meshes_world = Some (OMeshes v f) ->
  heap s !! v = Some (OVerts world) ->
  count_ok c (length world) ->
  settings_of self kwargs = Some ls ->
  heap s !! ls = Some (OSettings rs) ->
  min_defined rs c = true ->
  exists res s' call,
    forward self meshes_world kwargs s = (res, s') /\
    calls s' = calls s ++ [call] /\
    rc_perspective_correct call
    = match perspective_correct rs with
      | Some b => b
      | None => is_perspective c
      end /\
    (forall z, z_clip_value rs = Some z -> rc_z_clip_value call = Some z) /\
    (z_clip_value rs = None ->
     rc_perspective_correct call = true ->
     (forall z, get_znear c = ZnearFloat z ->
                rc_z_clip_value call = Some (PrimFloat.div z 2%float))
     /\ (forall t, get_znear c = ZnearTensor t ->
                   rc_z_clip_value call
                   = Some (PrimFloat.div (tensor_min t) 2%float))) /\
    (z_clip_value rs = None ->
     rc_perspective_correct call = false \/ get_znear c = ZnearNone ->
     rc_z_clip_value call = None).
Proof.
  intros Hc Em Ev Hn Hs Els Hd.
  destruct (forward_accepted_call _ _ _ _ _ _ _ _ _ _ Hc Em Ev Hn Hs Els Hd)
    as (m' & st & s' & _ & _ & _ & Hcalls & HF).
  eexists _, s', _. split; [exact HF|]. split; [exact Hcalls|].
  cbn. split; [reflexivity|]. split; [|split].
  - now intros z ->.
  - intros -> ->. split; [now intros z ->|now intros t ->].
  - intros -> [-> | ->]; [reflexivity|].
    now destruct (match perspective_correct rs with
                  | Some b => b
                  | None => is_perspective c
                  end).
Qed.

(** C6 (amended): when no camera is in effect (none was given at
    construction and none in the keyword arguments), [transform] and
    [forward] raise a [ValueError] and change nothing.  With a camera in
    effect and a count that fits, settings resolution fails in two cases
    and no other: the settings in effect are [None] (an [AttributeError]),
    or [z_clip_value] is unset and [get_znear()] is an empty tensor (the
    [RuntimeError] of [min()]); in both no call of [rasterize_meshes] is
    made.  Otherwise the call is made and its outcome is that of
    [forward]. *)
Theorem missing_camera_raises_value_error self meshes_world kwargs s :
  (cameras_of self kwargs = None ->
   transform self meshes_world kwargs s
   = (inl (ValueError msg_cameras_missing), s)
   /\ forward self meshes_world kwargs s
      = (inl (ValueError msg_cameras_missing), s))
  /\ (forall c v f world,
         cameras_of self kwargs = Some c ->
         heap s !! meshes_world = Some (OMeshes v f) ->
         heap s !! v = Some (OVerts world) ->
         count_ok c (length world) ->
         (settings_of self kwargs = None ->
          exists msg st,
            forward self meshes_world kwargs s
            = (inl (AttributeError msg), st)
            /\ calls st = calls s)
         /\ (forall ls rs,
                settings_of self kwargs = Some ls ->
                heap s !! ls = Some (OSettings rs) ->
                (min_defined rs c = false ->
                 exists msg st,
                   forward self meshes_world kwargs s
                   = (inl (RuntimeError msg), st)
                   /\ calls st = calls s)
                /\ (min_defined rs c = true ->
                    exists s' call,
                      calls s' = calls s ++ [call]
                      /\ forward self meshes_world kwargs s
                         = (match rasterize_meshes_impl (heap s') call with
                            | inl e => inl e
                            | inr o => inr (fragments_of o)
                            end, s')))).
Proof.
  split.
  - intros Hc. split.
    + now apply transform_missing.
    + now apply forward_missing.
  - intros c v f world Hc Em Ev Hn. split.
    + intros Hs. now apply (forward_settings_none _ _ _ _ _ _ _ _ Hc Em Ev).
    + intros ls rs Hs Els. split; intros Hd.
      * destruct (forward_min_undefined _ _ _ _ _ _ _ _ _ _
                    Hc Em Ev Hn Hs Els Hd)
          as (msg & m' & st & _ & Hcalls & _ & HF).
        eauto.
      * destruct (forward_accepted_call _ _ _ _ _ _ _ _ _ _
                    Hc Em Ev Hn Hs Els Hd)
          as (m' & st & s' & _ & Hh & _ & Hcalls & HF).
        exists s', (raster_call_of rs c m').
        split; [exact Hcalls|]. now rewrite Hh.
Qed.

(** C7: [transform] does not mutate its input: whatever the outcome, the
    input batch, its vertex tensor and its face tensor are in the store as
    before; a returned batch is a new object, built on a new vertex tensor
    and on the face tensor of the input. *)
Theorem transform_does_not_mutate_input
  self meshes_world kwargs s v f world faces res s' :
  heap s !! meshes_world = Some (OMeshes v f) ->
  heap s !! v = Some (OVerts world) ->
  heap s !! f = Some (OFaces faces) ->
  transform self meshes_world kwargs s = (res, s') ->
  heap s' !! meshes_world = Some (OMeshes v f)
  /\ heap s' !! v = Some (OVerts world)
  /\ heap s' !! f = Some (OFaces faces)
  /\ (forall l, l ∈ dom (heap s) -> heap s' !! l = heap s !! l)
  /\ (forall m', res = inr m' ->
        (m' ∉ dom (heap s))
        /\ exists v' ndc,
            heap s' !! m' = Some (OMeshes v' f)
            /\ (v' ∉ dom (heap s))
            /\ heap s' !! v' = Some (OVerts ndc)).
Proof.
  intros Em Ev Ef HT.
  destruct (cameras_of self kwargs) as [c|] eqn:Hc.
  2:{ rewrite (transform_missing _ _ _ _ Hc) in HT. injection HT as <- <-.
      repeat split; try done. }
  destruct (count_ok_dec c (length world)) as [Hok|Hn].
  2:{ rewrite (transform_mismatch _ _ _ _ _ _ _ _ Hc Em Ev Hn) in HT.
      injection HT as <- <-. repeat split; try done. }
  rewrite (transform_accepted _ _ _ _ _ _ _ _ Hc Em Ev Hok) in HT.
  pose proof (heap_after_transform_facts (heap s) c kwargs f world) as HH.
  destruct (heap_after_transform (heap s) c kwargs f world) as [[m1 v1] h1].
  destruct HH as (Fm & Fv & _ & Hm & Hv & Hframe).
  cbn [fst snd] in HT. injection HT as <- <-. cbn [heap].
  split; [rewrite Hframe by (apply elem_of_dom; eauto); exact Em|].
  split; [rewrite Hframe by (apply elem_of_dom; eauto); exact Ev|].
  split; [rewrite Hframe by (apply elem_of_dom; eauto); exact Ef|].
  split; [exact Hframe|].
  intros m' [= <-]. split; [exact Fm|]. eauto.
Qed.

(** C8: an accepted call of [forward] that reaches [rasterize_meshes] calls
    it once, on the projected batch, with the three tri-state fields
    resolved (the setting when it is set; otherwise [blur_radius > 0.0],
    [is_perspective()], and half of [znear] under a true perspective flag)
    and the other settings fields as they are; the settings object, like
    every object that was in the store, is there as before; and the result
    is the failure of that call or its five outputs, in order, as the
    fields of the [Fragments] record.  The one accepted call that does not
    reach [rasterize_meshes] asks [min()] of an empty [znear] tensor: it
    raises, and the store is as before. *)
Theorem forward_passes_resolved_settings
  self meshes_world kwargs s c v f world ls rs :
  cameras_of self kwargs = Some c ->
  heap s !! meshes_world = Some (OMeshes v f) ->
  heap s !! v = Some (OVerts world) ->
  count_ok c (length world) ->
  settings_of self kwargs = Some ls ->
  heap s !! ls = Some (OSettings rs) ->
  (min_defined rs c = true ->
   exists meshes_proj st s',
     let perspective :=
       match perspective_correct rs with
       | Some b => b
       | None => is_perspective c
       end in
     let call :=
       {| rc_meshes := meshes_proj;
          rc_image_size := image_size rs;
          rc_blur_radius := blur_radius rs;
          rc_faces_per_pixel := faces_per_pixel rs;
          rc_bin_size := bin_size rs;
          rc_max_faces_per_bin := max_faces_per_bin rs;
          rc_clip_barycentric_coords :=
            match clip_barycentric_coords rs with
            | Some b => b
            | None => PrimFloat.ltb 0%float (blur_radius rs)
            end;
          rc_perspective_correct := perspective;
          rc_cull_backfaces := cull_backfaces rs;
          rc_z_clip_value :=
            match z_clip_value rs with
            | Some z => Some z
            | None =>
                if perspective then
                  match get_znear c with
                  | ZnearNone => None
                  | ZnearFloat z => Some (PrimFloat.div z 2%float)
                  | ZnearTensor t =>
                      Some (PrimFloat.div (tensor_min t) 2%float)
                  end
                else None
            end;
          rc_cull_to_frustum := cull_to_frustum rs |} in
     transform self meshes_world kwargs s = (inr meshes_proj, st)
     /\ calls s' = calls s ++ [call]
     /\ heap s' !! ls = Some (OSettings rs)
     /\ (forall l, l ∈ dom (heap s) -> heap s' !! l = heap s !! l)
     /\ forward self meshes_world kwargs s
        = (match rasterize_meshes_impl (heap st) call with
           | inl e => inl e
           | inr (o1, o2, o3, o4, o5) =>
               inr {| pix_to_face := o1; zbuf := o2; bary_coords := o3;
                      dists := o4; back_faces := o5 |}
           end, s'))
  /\ (min_defined rs c = false ->
      exists msg st,
        forward self meshes_world kwargs s = (inl (RuntimeError msg), st)
        /\ calls st = calls s
        /\ heap st !! ls = Some (OSettings rs)
        /\ (forall l, l ∈ dom (heap s) -> heap st !! l = heap s !! l)).
Proof.
  intros Hc Em Ev Hn Hs Els. split; intros Hd.
  - destruct (forward_accepted_call _ _ _ _ _ _ _ _ _ _
                Hc Em Ev Hn Hs Els Hd)
      as (m' & st & s' & HT & _ & Hframe & Hcalls & HF).
    exists m', st, s'. cbv zeta.
    split; [exact HT|]. split; [exact Hcalls|].
    split; [rewrite Hframe by (apply elem_of_dom; eauto); exact Els|].
    split; [exact Hframe|].
    rewrite HF. unfold raster_call_of, fragments_of.
    now destruct (rasterize_meshes_impl _ _) as [e|[[[[o1 o2] o3] o4] o5]].
  - destruct (forward_min_undefined _ _ _ _ _ _ _ _ _ _
                Hc Em Ev Hn Hs Els Hd)
      as (msg & m' & st & _ & Hcalls & Hframe & HF).
    exists msg, st. split; [exact HF|]. split; [exact Hcalls|].
    split; [rewrite Hframe by (apply elem_of_dom; eauto); exact Els|].
    exact Hframe.
Qed.


(** C10: [forward] runs [transform], with its two camera checks, before it
    looks at the settings.  Settings whose three tri-state fields are all
    set resolve to the same values whatever the camera is; yet without a
    camera, or with a camera count that does not fit, [forward] raises the
    [ValueError] of [transform] and changes nothing, whatever the settings
    are. *)
Theorem forward_checks_cameras_before_settings self meshes_world kwargs s :
  (forall rs c1 c2 p1 p2,
      is_Some (perspective_correct rs) ->
      is_Some (z_clip_value rs) ->
      resolve_perspective_correct rs c1 = resolve_perspective_correct rs c2
      /\ resolve_z_clip rs c1 p1 = resolve_z_clip rs c2 p2)
  /\ (cameras_of self kwargs = None ->
      forward self meshes_world kwargs s
      = (inl (ValueError msg_cameras_missing), s))
  /\ (forall c v f world,
         cameras_of self kwargs = Some c ->
         heap s !! meshes_world = Some (OMeshes v f) ->
         heap s !! v = Some (OVerts world) ->
         cameras_len c ≠ 1 -> cameras_len c ≠ length world ->
         forward self meshes_world kwargs s
         = (inl (ValueError
                   (msg_wrong_number (cameras_len c) (length world))), s)).
Proof.
  split; [|split].
  - intros rs c1 c2 p1 p2 [b Hb] [z Hz].
    unfold resolve_perspective_correct, resolve_z_clip.
    now rewrite Hb, Hz.
  - apply forward_missing.
  - intros c v f world Hc Em Ev Hn1 Hn2.
    apply (forward_mismatch _ _ _ _ _ _ _ _ Hc Em Ev).
    unfold count_ok. tauto.
Qed.

(** ** Computations that keep the store *)

Lemma frames_refl s : frames s s.
Proof. repeat split; done. Qed.

Lemma safe_weaken {A} s0 (m : M A) (Q R : A -> Prop) :
  safe s0 m Q -> (forall a, Q a -> R a) -> safe s0 m R.
Proof.
  intros Hm HQ s Hs. destruct (Hm s Hs) as [Hf Ha]. split; auto.
Qed.

Lemma safe_ret {A} s0 (a : A) (Q : A -> Prop) : Q a -> safe s0 (mret a) Q.
Proof. intros Ha s Hs. split; [exact Hs|]. now intros a' [= <-]. Qed.

Lemma safe_raise {A} s0 (e : exn) (Q : A -> Prop) : safe s0 (raise e) Q.
Proof. intros s Hs. split; [exact Hs|]. intros a. discriminate. Qed.

Lemma safe_bind {A B} s0 (m : M A) (k : A -> M B) Q R :
  safe s0 m Q -> (forall a, Q a -> safe s0 (k a) R) -> safe s0 (m ≫= k) R.
Proof.
  intros Hm Hk s Hs. destruct (Hm s Hs) as [Hf Ha].
  unfold mbind, M_bind, bind.
  destruct (m s) as [[e|a] s1]; cbn in *.
  - split; [exact Hf|]. intros b. discriminate.
  - apply (Hk a (Ha a eq_refl) s1 Hf).
Qed.

Lemma safe_read s0 l : safe s0 (read l) (fun _ => True).
Proof.
  intros s Hs. unfold read.
  destruct (heap s !! l); cbn; split; auto.
Qed.

(** A new object is not one of the objects of [s0]. *)
Lemma safe_alloc s0 o : safe s0 (alloc o) (fun l => l ∉ dom (heap s0)).
Proof.
  intros s (Hc & Hd & Hl). unfold alloc, frames. cbn.
  pose proof (is_fresh (dom (heap s))) as Hf.
  assert (Hn : fresh (dom (heap s)) ∉ dom (heap s0))
    by (intros Hin; apply Hf, Hd, Hin).
  split; [|now intros a [= <-]].
  split; [exact Hc|]. split.
  - rewrite dom_insert_L. intros l Hin. apply elem_of_union. right. auto.
  - intros l Hin. rewrite lookup_insert_ne; [auto|].
    intros <-. contradiction.
Qed.

(** Only an object that [s0] did not have may be overwritten. *)
Lemma safe_write s0 l o :
  l ∉ dom (heap s0) -> safe s0 (write l o) (fun _ => True).
Proof.
  intros Hn s (Hc & Hd & Hl). unfold write, frames. cbn.
  split; [|done].
  split; [exact Hc|]. split.
  - rewrite dom_insert_L. intros l' Hin. apply elem_of_union. right. auto.
  - intros l' Hin. rewrite lookup_insert_ne; [auto|].
    intros <-. contradiction.
Qed.

Lemma safe_read_verts s0 l : safe s0 (read_verts l) (fun _ => True).
Proof.
  unfold read_verts. eapply safe_bind; [apply safe_read|].
  intros [] _; first [now apply safe_ret | apply safe_raise].
Qed.

Lemma safe_verts_padded s0 l : safe s0 (verts_padded l) (fun _ => True).
Proof.
  unfold verts_padded. eapply safe_bind; [apply safe_read|].
  intros [] _; first [now apply safe_ret | apply safe_raise].
Qed.

Lemma safe_meshes_len s0 l : safe s0 (meshes_len l) (fun _ => True).
Proof.
  unfold meshes_len. eapply safe_bind; [apply safe_verts_padded|].
  intros v _. eapply safe_bind; [apply safe_read_verts|].
  intros t _. now apply safe_ret.
Qed.

Lemma safe_transform_points s0 (t : T) l eps :
  safe s0 (transform_points t l eps) (fun l' => l' ∉ dom (heap s0)).
Proof.
  unfold transform_points. eapply safe_bind; [apply safe_read_verts|].
  intros pts _. apply safe_alloc.
Qed.

Lemma safe_setitem_z s0 dst src :
  dst ∉ dom (heap s0) -> safe s0 (setitem_z dst src) (fun _ => True).
Proof.
  intros Hn. unfold setitem_z. eapply safe_bind; [apply safe_read_verts|].
  intros d _. eapply safe_bind; [apply safe_read_verts|].
  intros sv _. destruct (splice_z d sv); [now apply safe_write|apply safe_raise].
Qed.

Lemma safe_update_padded s0 m new_verts :
  safe s0 (update_padded m new_verts) (fun l' => l' ∉ dom (heap s0)).
Proof.
  unfold update_padded. eapply safe_bind; [apply safe_read|].
  intros [] _; first [apply safe_alloc | apply safe_raise].
Qed.

Lemma safe_transform s0 self meshes_world kwargs :
  safe s0 (transform self meshes_world kwargs) (fun m => m ∉ dom (heap s0)).
Proof.
  unfold transform.
  destruct (kwargs_get (kw_cameras kwargs) (self_cameras self)) as [c|];
    [|apply safe_raise].
  eapply safe_bind with (Q := fun _ => True).
  { destruct (bool_decide (cameras_len c ≠ 1)); [|now apply safe_ret].
    eapply safe_bind; [apply safe_meshes_len|].
    intros n _. now apply safe_ret. }
  intros [|] _.
  - eapply safe_bind; [apply safe_meshes_len|]. intros n _. apply safe_raise.
  - eapply safe_bind; [apply safe_verts_padded|]. intros vw _.
    eapply safe_bind; [apply safe_transform_points|]. intros vv _.
    eapply safe_bind; [apply safe_transform_points|]. intros vn Hvn.
    eapply safe_bind; [now apply safe_setitem_z|]. intros _ _.
    apply safe_update_padded.
Qed.

(** ** Further properties *)

(** X1: whatever the store holds and whatever the outcome, [transform]
    makes no call of [rasterize_meshes], leaves every object of the store
    as it was, and a batch it returns is a new object. *)
Theorem transform_keeps_the_store self meshes_world kwargs s :
  let r := transform self meshes_world kwargs s in
  calls r.2 = calls s
  /\ (forall l, l ∈ dom (heap s) -> heap r.2 !! l = heap s !! l)
  /\ (forall m, r.1 = inr m -> m ∉ dom (heap s)).
Proof.
  destruct (safe_transform s self meshes_world kwargs s (frames_refl s))
    as [(Hc & _ & Hl) Hm].
  cbv zeta. auto.
Qed.

(** X2: whatever the store holds, [forward] leaves every object of the
    store as it was and calls [rasterize_meshes] at most once: either it
    raises without a call, or [transform] returned a batch and the one call
    is made on that batch, its outcome being the outcome of [forward]. *)
Theorem forward_calls_rasterize_at_most_once self meshes_world kwargs s :
  let r := forward self meshes_world kwargs s in
  (forall l, l ∈ dom (heap s) -> heap r.2 !! l = heap s !! l)
  /\ ((calls r.2 = calls s /\ exists e, r.1 = inl e)
      \/ (exists m st call,
             transform self meshes_world kwargs s = (inr m, st)
             /\ rc_meshes call = m
             /\ calls r.2 = calls s ++ [call]
             /\ heap r.2 = heap st
             /\ r.1 = match rasterize_meshes_impl (heap st) call with
                      | inl e => inl e
                      | inr o => inr (fragments_of o)
                      end)).
Proof.
  destruct (safe_transform s self meshes_world kwargs s (frames_refl s))
    as [(Hc & _ & Hl) _].
  cbv zeta. unfold forward, mbind, M_bind, bind.
  destruct (transform self meshes_world kwargs s) as [[e|m] st] eqn:HT;
    cbn [fst snd] in *.
  { split; [exact Hl|]. left. eauto. }
  destruct (kwargs_get (kw_raster_settings kwargs)
              (Some (self_raster_settings self))) as [ls|].
  2:{ cbn. split; [exact Hl|]. left. eauto. }
  unfold read_settings, read, mbind, M_bind, bind.
  destruct (heap st !! ls) as [[| | |rs]|]; cbn;
    try (split; [exact Hl|left; eauto]).
  destruct (kwargs_get (kw_cameras kwargs) (self_cameras self)) as [c|]; cbn;
    try (split; [exact Hl|left; eauto]).
  unfold lift_exn.
  destruct (resolve_z_clip rs c (resolve_perspective_correct rs c))
    as [e|z]; cbn; [split; [exact Hl|left; eauto]|].
  unfold rasterize_meshes.
  match goal with
  | |- context [rasterize_meshes_impl (heap st) ?call] =>
      set (rcall := call);
      destruct (rasterize_meshes_impl (heap st) rcall)
        as [e|[[[[o1 o2] o3] o4] o5]] eqn:HR; cbn;
      (split; [exact Hl|]); right;
      exists m, st, rcall; rewrite HR, Hc; cbn; auto
  end.
Qed.

(** X3: [__init__] never fails, and without [raster_settings] it builds a
    new object holding the default settings: two rasterizers built that way
    hold two different settings objects, both new to the store, and no
    object of the store is changed. *)
Theorem init_builds_its_own_default_settings
  (cameras1 cameras2 : option (Cameras T KwRest)) s :
  exists r1 s1 r2 s2,
    init cameras1 None s = (inr r1, s1)
    /\ init cameras2 None s1 = (inr r2, s2)
    /\ self_cameras r1 = cameras1 /\ self_cameras r2 = cameras2
    /\ self_raster_settings r1 ≠ self_raster_settings r2
    /\ (self_raster_settings r1 ∉ dom (heap s))
    /\ (self_raster_settings r2 ∉ dom (heap s))
    /\ heap s2 !! self_raster_settings r1 = Some (OSettings default_settings)
    /\ heap s2 !! self_raster_settings r2 = Some (OSettings default_settings)
    /\ (forall l, l ∈ dom (heap s) -> heap s2 !! l = heap s !! l)
    /\ calls s2 = calls s.
Proof.
  set (l1 := fresh (dom (heap s))).
  set (h1 := <[l1 := OSettings default_settings]> (heap s)).
  set (l2 := fresh (dom h1)).
  assert (F1 : l1 ∉ dom (heap s)) by apply is_fresh.
  assert (F2 : l2 ∉ dom h1) by apply is_fresh.
  unfold h1 in F2. rewrite dom_insert_L in F2.
  apply not_elem_of_union in F2 as [F21 F2].
  apply not_elem_of_singleton in F21.
  exists {| self_cameras := cameras1; self_raster_settings := l1 |},
         {| heap := h1; calls := calls s |},
         {| self_cameras := cameras2; self_raster_settings := l2 |},
         {| heap := <[l2 := OSettings default_settings]> h1; calls := calls s |}.
  cbn. repeat split; try done.
  - rewrite lookup_insert_ne by done. apply lookup_insert_eq.
  - apply lookup_insert_eq.
  - intros l Hl.
    assert (l2 ≠ l /\ l1 ≠ l) as [? ?] by (split; intros ->; contradiction).
    rewrite lookup_insert_ne by done. unfold h1.
    now rewrite lookup_insert_ne by done.
Qed.

(** X4: a rasterizer built from cameras alone, called without the keywords
    [cameras] and [raster_settings] on a batch its cameras accept, calls
    [rasterize_meshes] with the defaults of [RasterizationSettings]: image
    size 256, blur radius 0, one face per pixel, no bin size and no bin
    capacity, no culling, no barycentric clamping; perspective correction
    is the camera's flag, and the clip depth is, for a perspective camera,
    half of its number [znear] or half of the minimum of its tensor
    [znear], and none for an orthographic camera or a [znear] of [None].
    The cameras' [znear] is not an empty tensor. *)
Theorem default_rasterizer_call c meshes_world kwargs s v f world :
  kw_cameras kwargs = None ->
  kw_raster_settings kwargs = None ->
  heap s !! meshes_world = Some (OMeshes v f) ->
  heap s !! v = Some (OVerts world) ->
  count_ok c (length world) ->
  get_znear c <> ZnearTensor [] ->
  exists r s1 res s2 meshes_proj,
    init (Some c) None s = (inr r, s1)
    /\ forward r meshes_world kwargs s1 = (res, s2)
    /\ calls s2
       = calls s ++
         [ {| rc_meshes := meshes_proj;
              rc_image_size := SizeSquare 256;
              rc_blur_radius := 0%float;
              rc_faces_per_pixel := 1;
              rc_bin_size := None;
              rc_max_faces_per_bin := None;
              rc_clip_barycentric_coords := false;
              rc_perspective_correct := is_perspective c;
              rc_cull_backfaces := false;
              rc_z_clip_value :=
                if is_perspective c then
                  match get_znear c with
                  | ZnearNone => None
                  | ZnearFloat z => Some (PrimFloat.div z 2%float)
                  | ZnearTensor t =>
                      Some (PrimFloat.div (tensor_min t) 2%float)
                  end
                else None;
              rc_cull_to_frustum := false |} ].
Proof.
  intros Hkc Hks Em Ev Hn Hz.
  set (l := fresh (dom (heap s))).
  set (s1 := {| heap := <[l := OSettings default_settings]> (heap s);
                calls := calls s |}).
  set (r := {| self_cameras := Some c; self_raster_settings := l |}).
  assert (Hm : l ≠ meshes_world) by (eapply fresh_not_in; exact Em).
  assert (Hv : l ≠ v) by (eapply fresh_not_in; exact Ev).
  assert (Hc : cameras_of r kwargs = Some c)
    by (unfold cameras_of; now rewrite Hkc).
  assert (Hs : settings_of r kwargs = Some l)
    by (unfold settings_of; now rewrite Hks).
  assert (Em1 : heap s1 !! meshes_world = Some (OMeshes v f))
    by (cbn; now rewrite lookup_insert_ne).
  assert (Ev1 : heap s1 !! v = Some (OVerts world))
    by (cbn; now rewrite lookup_insert_ne).
  assert (El1 : heap s1 !! l = Some (OSettings default_settings))
    by apply lookup_insert_eq.
  assert (Hd : min_defined default_settings c = true).
  { unfold min_defined. cbn. now destruct (get_znear c) as [|z|[|a t]]. }
  destruct (forward_accepted_call _ _ _ _ _ _ _ _ _ _
              Hc Em1 Ev1 Hn Hs El1 Hd)
    as (m' & st & s2 & _ & _ & _ & Hcalls & HF).
  exists r, s1. eexists _, s2, m'.
  split; [reflexivity|]. split; [exact HF|].
  rewrite Hcalls. reflexivity.
Qed.

(** X5: the settings given at construction are kept by reference and read
    when [forward] runs: after an assignment to the settings object, a call
    that passes no [raster_settings] keyword uses the new contents.  (With
    new contents that ask [min()] of an empty [znear] tensor, the call
    raises the [RuntimeError] of [min()].) *)
Theorem forward_reads_settings_at_call_time
  c ls meshes_world kwargs s v f world rs_old rs_new :
  kw_cameras kwargs = None ->
  kw_raster_settings kwargs = None ->
  heap s !! ls = Some (OSettings rs_old) ->
  heap s !! meshes_world = Some (OMeshes v f) ->
  heap s !! v = Some (OVerts world) ->
  count_ok c (length world) ->
  (min_defined rs_new c = true ->
   exists r res s' meshes_proj,
     init (Some c) (Some ls) s = (inr r, s)
     /\ (write ls (OSettings rs_new);; forward r meshes_world kwargs) s
        = (res, s')
     /\ calls s' = calls s ++ [raster_call_of rs_new c meshes_proj]
     /\ heap s' !! ls = Some (OSettings rs_new))
  /\ (min_defined rs_new c = false ->
      exists r msg st,
        init (Some c) (Some ls) s = (inr r, s)
        /\ (write ls (OSettings rs_new);; forward r meshes_world kwargs) s
           = (inl (RuntimeError msg), st)
        /\ calls st = calls s).
Proof.
  intros Hkc Hks Els Em Ev Hn.
  set (r := {| self_cameras := Some c; self_raster_settings := ls |}).
  set (s1 := {| heap := <[ls := OSettings rs_new]> (heap s);
                calls := calls s |}).
  assert (Hm : ls ≠ meshes_world) by (intros ->; congruence).
  assert (Hv : ls ≠ v) by (intros ->; congruence).
  assert (Hc : cameras_of r kwargs = Some c)
    by (unfold cameras_of; now rewrite Hkc).
  assert (Hs : settings_of r kwargs = Some ls)
    by (unfold settings_of; now rewrite Hks).
  assert (Em1 : heap s1 !! meshes_world = Some (OMeshes v f))
    by (cbn; now rewrite lookup_insert_ne).
  assert (Ev1 : heap s1 !! v = Some (OVerts world))
    by (cbn; now rewrite lookup_insert_ne).
  assert (El1 : heap s1 !! ls = Some (OSettings rs_new))
    by apply lookup_insert_eq.
  split; intros Hd.
  - destruct (forward_accepted_call _ _ _ _ _ _ _ _ _ _
                Hc Em1 Ev1 Hn Hs El1 Hd)
      as (m' & st & s2 & _ & _ & Hframe & Hcalls & HF).
    exists r. eexists _, s2, m'.
    split; [reflexivity|].
    split; [rewrite (bind_inr _ _ s tt s1) by reflexivity; exact HF|].
    split; [exact Hcalls|].
    rewrite Hframe; [exact El1|]. apply elem_of_dom. eauto.
  - destruct (forward_min_undefined _ _ _ _ _ _ _ _ _ _
                Hc Em1 Ev1 Hn Hs El1 Hd)
      as (msg & m' & st & _ & Hcalls & _ & HF).
    exists r, msg, st.
    split; [reflexivity|].
    split; [rewrite (bind_inr _ _ s tt s1) by reflexivity; exact HF|].
    exact Hcalls.
Qed.

(** X6: a [cameras] keyword takes the place of the cameras of the
    rasterizer: then [transform] does not depend on the rasterizer at all,
    nor does [forward] when a [raster_settings] keyword is given too; and
    an explicit [cameras=None] is a missing camera even for a rasterizer
    that has cameras. *)
Theorem keyword_arguments_take_precedence
  self1 self2 meshes_world kwargs s (oc : option (Cameras T KwRest)) :
  kw_cameras kwargs = Some oc ->
  transform self1 meshes_world kwargs s = transform self2 meshes_world kwargs s
  /\ (is_Some (kw_raster_settings kwargs) ->
      forward self1 meshes_world kwargs s
      = forward self2 meshes_world kwargs s)
  /\ (oc = None ->
      forward self1 meshes_world kwargs s
      = (inl (ValueError msg_cameras_missing), s)).
Proof.
  intros Hk.
  assert (HT : transform self1 meshes_world kwargs s
               = transform self2 meshes_world kwargs s)
    by (unfold transform; now rewrite Hk).
  split; [exact HT|]. split.
  - intros [ol Hl]. unfold forward, mbind, M_bind, bind.
    rewrite HT, Hk, Hl. reflexivity.
  - intros ->. apply forward_missing. unfold cameras_of. now rewrite Hk.
Qed.

(** X7: the setting [perspective_correct], when it is set, decides whether
    a clip depth is inferred, whatever the camera's own flag is.  With
    [z_clip_value] unset, an explicit [perspective_correct=False] gives no
    clipping even for a perspective camera, and an explicit
    [perspective_correct=True] gives half of [znear] (half of its minimum
    for a tensor, none for a [znear] of [None]) even for an orthographic
    camera. *)
Theorem perspective_setting_gates_inferred_clipping
  self meshes_world kwargs s c v f world ls rs (b : bool) :
  cameras_of self kwargs = Some c ->
  heap s !! meshes_world = Some (OMeshes v f) ->
  heap s !! v = Some (OVerts world) ->
  count_ok c (length world) ->
  settings_of self kwargs = Some ls ->
  heap s !! ls = Some (OSettings rs) ->
  z_clip_value rs = None ->
  perspective_correct rs = Some b ->
  get_znear c <> ZnearTensor [] ->
  exists res s' call,
    forward self meshes_world kwargs s = (res, s')
    /\ calls s' = calls s ++ [call]
    /\ rc_z_clip_value call
       = if b then
           match get_znear c with
           | ZnearNone => None
           | ZnearFloat z => Some (PrimFloat.div z 2%float)
           | ZnearTensor t => Some (PrimFloat.div (tensor_min t) 2%float)
           end
         else None.
Proof.
  intros Hc Em Ev Hn Hs Els Hz Hp Hne.
  assert (Hd : min_defined rs c = true).
  { unfold min_defined. rewrite Hz. now destruct (get_znear c) as [|z|[|a t]]. }
  destruct (forward_accepted_call _ _ _ _ _ _ _ _ _ _ Hc Em Ev Hn Hs Els Hd)
    as (m' & st & s' & _ & _ & _ & Hcalls & HF).
  eexists _, s', _. split; [exact HF|]. split; [exact Hcalls|].
  cbn. now rewrite Hz, Hp.
Qed.

Lemma length_verts_ndc_of c kwargs world :
  length (verts_ndc_of c kwargs world) = length world.
Proof. unfold verts_ndc_of, verts_view_of. now rewrite !length_imap. Qed.

Lemma row_length_verts_ndc_of c kwargs world n :
  length <$> (verts_ndc_of c kwargs world !! n) = length <$> (world !! n).
Proof.
  unfold verts_ndc_of, verts_view_of. rewrite !list_lookup_imap.
  destruct (world !! n) as [row|]; [|reflexivity].
  cbn. now rewrite !length_fmap.
Qed.

(** X8: the batch returned by an accepted [transform] has the shape of the
    input: as many meshes, and in each mesh as many vertices.  So its
    [len] is that of the input, and the same cameras accept it again. *)
Theorem transform_preserves_shape self meshes_world kwargs s c v f world :
  cameras_of self kwargs = Some c ->
  heap s !! meshes_world = Some (OMeshes v f) ->
  heap s !! v = Some (OVerts world) ->
  count_ok c (length world) ->
  exists m1 v1 ndc s1,
    transform self meshes_world kwargs s = (inr m1, s1)
    /\ heap s1 !! m1 = Some (OMeshes v1 f)
    /\ heap s1 !! v1 = Some (OVerts ndc)
    /\ length ndc = length world
    /\ (forall n, length <$> (ndc !! n) = length <$> (world !! n))
    /\ meshes_len m1 s1 = (inr (length world), s1)
    /\ exists m2 s2, transform self m1 kwargs s1 = (inr m2, s2).
Proof.
  intros Hc Em Ev Hn.
  pose proof (transform_accepted _ _ _ _ _ _ _ _ Hc Em Ev Hn) as HT.
  pose proof (heap_after_transform_facts (heap s) c kwargs f world) as HH.
  destruct (heap_after_transform (heap s) c kwargs f world) as [[m1 v1] h1].
  destruct HH as (_ & _ & _ & Hm & Hv & _).
  cbn [fst snd] in HT.
  set (s1 := {| heap := h1; calls := calls s |}) in *.
  exists m1, v1, (verts_ndc_of c kwargs world), s1.
  split; [exact HT|]. split; [exact Hm|]. split; [exact Hv|].
  split; [apply length_verts_ndc_of|].
  split; [intros n; apply row_length_verts_ndc_of|].
  split.
  - rewrite (meshes_len_ok s1 m1 v1 f _ Hm Hv).
    now rewrite length_verts_ndc_of.
  - eexists _, _. apply (transform_accepted _ _ _ s1 _ _ _ _ Hc Hm Hv).
    now rewrite length_verts_ndc_of.
Qed.

End Properties.

(** * The concrete scene, evaluated *)

(** The reduction of the scene is a [Tensor.min()]. *)
#[global] Instance ex_tensor_min : TensorMin := {|
  tensor_min := min_reduce;
  tensor_min_elem := min_reduce_elem;
  tensor_min_lower := min_reduce_lower
|}.

Example ex_transform_result :
  match transform (ex_self 2) 3%positive ex_kwargs ex_state with
  | (inr m, s') =>
      match heap s' !! m with
      | Some (OMeshes v f) => (f, heap s' !! v)
      | _ => (1%positive, None)
      end
  | _ => (1%positive, None)
  end
  = (2%positive,
     Some (OVerts
       [ [ mkPoint (-0) (-0) 4; mkPoint (-0.5) (-0) 4; mkPoint (-0) (-0.5) 4 ];
         [ mkPoint (-1 / 3) (-1 / 3) 3; mkPoint (1 / 3) (-1 / 3) 3;
           mkPoint (-0) (1 / 3) 3 ] ]%float)).
Proof. vm_compute. reflexivity. Qed.

Example ex_forward_result :
  forward (ex_self 2) 3%positive ex_kwargs ex_state
  = (inr {| pix_to_face := 10%Z; zbuf := 20%Z; bary_coords := 30%Z;
            dists := 40%Z; back_faces := 50%Z |},
     {| heap := (transform (ex_self 2) 3%positive ex_kwargs ex_state).2.(heap);
        calls :=
          [ {| rc_meshes := 7%positive;
               rc_image_size := SizeHW 4 4;
               rc_blur_radius := 0.5%float;
               rc_faces_per_pixel := 1;
               rc_bin_size := Some 0%Z;
               rc_max_faces_per_bin := None;
               rc_clip_barycentric_coords := true;
               rc_perspective_correct := true;
               rc_cull_backfaces := false;
               rc_z_clip_value := Some 0.25%float;
               rc_cull_to_frustum := false |} ] |}).
Proof. vm_compute. reflexivity. Qed.

Example ex_forward_wrong_count :
  forward (ex_self 3) 3%positive ex_kwargs ex_state
  = (inl (ValueError "Wrong number (3) of cameras for 2 meshes"), ex_state).
Proof. vm_compute. reflexivity. Qed.

Example ex_forward_no_cameras :
  forward ex_self_no_cameras 3%positive ex_kwargs ex_state
  = (inl (ValueError msg_cameras_missing), ex_state).
Proof. reflexivity. Qed.

(** An explicit [cameras=None] hides the cameras of the rasterizer. *)
Example ex_forward_cameras_none :
  forward (ex_self 2) 3%positive
    {| kw_cameras := Some None; kw_raster_settings := None; kw_eps := None;
       kw_rest := tt |} ex_state
  = (inl (ValueError msg_cameras_missing), ex_state).
Proof. reflexivity. Qed.

(** An explicit [raster_settings=None] is not a settings object. *)
Example ex_forward_settings_none :
  (forward (ex_self 2) 3%positive ex_kwargs_settings_none ex_state).1
  = inl (AttributeError "NoneType has no attribute clip_barycentric_coords").
Proof. vm_compute. reflexivity. Qed.

(** [nan > 0.0] and [-0.0 > 0.0] are false. *)
Example ex_clip_barycentric_nan :
  resolve_clip_barycentric_coords
    {| image_size := SizeSquare 256; blur_radius := nan;
       faces_per_pixel := 1; bin_size := None; max_faces_per_bin := None;
       perspective_correct := None; clip_barycentric_coords := None;
       cull_backfaces := false; z_clip_value := None;
       cull_to_frustum := false |} = false
  /\ PyFloat.gt_zero (-0)%float = false
  /\ resolve_clip_barycentric_coords default_settings = false.
Proof. repeat split. Qed.

(** An explicit clip depth of [0.0] is kept: the test is [is not None];
    and [min()] is then not asked of the empty tensor. *)
Example ex_z_clip_explicit_zero :
  resolve_z_clip
    {| image_size := SizeSquare 256; blur_radius := 0%float;
       faces_per_pixel := 1; bin_size := None; max_faces_per_bin := None;
       perspective_correct := Some false; clip_barycentric_coords := None;
       cull_backfaces := false; z_clip_value := Some 0%float;
       cull_to_frustum := false |} ex_no_cameras false
  = inr (Some 0%float).
Proof. reflexivity. Qed.

(** The clip depth inferred from the tensor [1.0, 0.5], from the number
    [0.5] and from [None]. *)
Example ex_z_clip_inferred :
  resolve_z_clip ex_settings (ex_cameras 1) true = inr (Some 0.25%float)
  /\ resolve_z_clip ex_settings (ex_cameras 1) false = inr None
  /\ resolve_z_clip ex_settings ex_cameras_ortho true = inr (Some 0.25%float)
  /\ resolve_z_clip ex_settings ex_cameras_ortho false = inr None
  /\ resolve_z_clip ex_settings ex_cameras_no_znear true = inr None.
Proof. repeat split. Qed.

(** [min()] of an empty tensor raises, also when the flag is false. *)
Example ex_z_clip_empty :
  resolve_z_clip default_settings ex_no_cameras false
  = inl (RuntimeError "min(): cannot reduce an empty tensor").
Proof. reflexivity. Qed.

(** The reduction of the scene on zeros of different sign and on NaN. *)
Example ex_min_reduce :
  min_reduce [0%float; (-0)%float] = (-0)%float
  /\ min_reduce [(-0)%float; 0%float] = 0%float
  /\ min_reduce [1%float; nan; 0.5%float] = nan.
Proof. repeat split. Qed.

(** ** The properties at the concrete scene *)

Lemma transform_keeps_view_depth_witness :
  exists m' v' ndc s',
    transform (ex_self 2) 3%positive ex_kwargs ex_state = (inr m', s') /\
    heap s' !! m' = Some (OMeshes v' 2%positive) /\
    heap s' !! v' = Some (OVerts ndc) /\
    forall n i,
      (ndc !! n ≫= (.!! i))
      = (fun p =>
           splice_point (ndc_map (ex_cameras 2) ex_kwargs) n
             (view_map (ex_cameras 2) ex_kwargs n p))
          <$> (ex_world !! n ≫= (.!! i)).
Proof.
  exact (transform_keeps_view_depth (ex_self 2) 3%positive ex_kwargs
           ex_state (ex_cameras 2) 1%positive 2%positive ex_world
           eq_refl eq_refl eq_refl (or_intror eq_refl)).
Defined.

Lemma transform_raises_iff_count_mismatch_witness :
  ((exists e s',
       transform (ex_self 3) 3%positive ex_kwargs ex_state = (inl e, s'))
   <-> (3 ≠ 1 /\ 3 ≠ 2))
  /\ (3 ≠ 1 /\ 3 ≠ 2 ->
      exists e s',
        is_ValueError e = true /\
        transform (ex_self 3) 3%positive ex_kwargs ex_state = (inl e, s') /\
        forward (ex_self 3) 3%positive ex_kwargs ex_state
        = (inl e, s') /\
        calls s' = calls ex_state /\ heap s' = heap ex_state).
Proof.
  exact (transform_raises_iff_count_mismatch (ex_self 3)
           3%positive ex_kwargs ex_state (ex_cameras 3) 1%positive 2%positive
           ex_world eq_refl eq_refl eq_refl).
Defined.

Lemma forward_clip_barycentric_coords_witness :
  exists res s' call,
    forward (ex_self 2) 3%positive ex_kwargs ex_state = (res, s') /\
    calls s' = calls ex_state ++ [call] /\
    (clip_barycentric_coords ex_settings = None ->
     rc_clip_barycentric_coords call = PrimFloat.ltb 0%float 0.5%float) /\
    (forall b, clip_barycentric_coords ex_settings = Some b ->
               rc_clip_barycentric_coords call = b).
Proof.
  exact (proj1
           (forward_clip_barycentric_coords (ex_self 2)
              3%positive ex_kwargs ex_state (ex_cameras 2) 1%positive
              2%positive ex_world 4%positive ex_settings
              eq_refl eq_refl eq_refl (or_intror eq_refl) eq_refl eq_refl)
           eq_refl).
Defined.

Lemma forward_perspective_correct_witness :
  exists res s' call,
    forward (ex_self 2) 3%positive ex_kwargs ex_state = (res, s') /\
    calls s' = calls ex_state ++ [call] /\
    (perspective_correct ex_settings = None ->
     rc_perspective_correct call = true) /\
    (forall b, perspective_correct ex_settings = Some b ->
               rc_perspective_correct call = b).
Proof.
  exact (proj1
           (forward_perspective_correct (ex_self 2)
              3%positive ex_kwargs ex_state (ex_cameras 2) 1%positive
              2%positive ex_world 4%positive ex_settings
              eq_refl eq_refl eq_refl (or_intror eq_refl) eq_refl eq_refl)
           eq_refl).
Defined.

(** The clip depth at the scene: half of the minimum of the tensor
    [1.0, 0.5] for its perspective cameras; half of the number [0.5] for an
    orthographic camera under [perspective_correct=True]; none for the
    perspective cameras under [perspective_correct=False]. *)
Lemma forward_z_clip_value_witness :
  (exists res s' call,
      forward (ex_self 2) 3%positive ex_kwargs ex_state = (res, s')
      /\ calls s' = calls ex_state ++ [call]
      /\ rc_z_clip_value call = Some 0.25%float)
  /\ (exists res s' call,
         forward {| self_cameras := Some ex_cameras_ortho;
                    self_raster_settings := 4%positive |}
           3%positive ex_kwargs ex_state_forced = (res, s')
         /\ calls s' = calls ex_state_forced ++ [call]
         /\ rc_z_clip_value call = Some 0.25%float)
  /\ (exists res s' call,
         forward (ex_self 2) 3%positive ex_kwargs ex_state_flat = (res, s')
         /\ calls s' = calls ex_state_flat ++ [call]
         /\ rc_z_clip_value call = None).
Proof.
  split; [|split].
  - destruct (forward_z_clip_value (ex_self 2)
                3%positive ex_kwargs ex_state (ex_cameras 2) 1%positive
                2%positive ex_world 4%positive ex_settings
                eq_refl eq_refl eq_refl (or_intror eq_refl) eq_refl eq_refl
                eq_refl)
      as (res & s' & call & HF & Hc & Hp & _ & Hz & _).
    exists res, s', call. split; [exact HF|]. split; [exact Hc|].
    exact (proj2 (Hz eq_refl Hp) _ eq_refl).
  - destruct (forward_z_clip_value
                {| self_cameras := Some ex_cameras_ortho;
                   self_raster_settings := 4%positive |}
                3%positive ex_kwargs ex_state_forced ex_cameras_ortho
                1%positive 2%positive ex_world 4%positive ex_settings_forced
                eq_refl eq_refl eq_refl (or_introl eq_refl) eq_refl eq_refl
                eq_refl)
      as (res & s' & call & HF & Hc & Hp & _ & Hz & _).
    exists res, s', call. split; [exact HF|]. split; [exact Hc|].
    exact (proj1 (Hz eq_refl Hp) _ eq_refl).
  - destruct (forward_z_clip_value (ex_self 2)
                3%positive ex_kwargs ex_state_flat (ex_cameras 2) 1%positive
                2%positive ex_world 4%positive ex_settings_flat
                eq_refl eq_refl eq_refl (or_intror eq_refl) eq_refl eq_refl
                eq_refl)
      as (res & s' & call & HF & Hc & Hp & _ & _ & Hn).
    exists res, s', call. split; [exact HF|]. split; [exact Hc|].
    exact (Hn eq_refl (or_introl Hp)).
Defined.

(** An orthographic bundle of no cameras on a batch of no meshes, with
    nothing set: the call does not get [None] as clip depth, it raises. *)
Lemma forward_z_clip_value_counterexample :
  is_perspective ex_no_cameras = false
  /\ perspective_correct default_settings = None
  /\ z_clip_value default_settings = None
  /\ (exists m st,
         transform ex_self_empty 3%positive ex_kwargs ex_empty_state
         = (inr m, st))
  /\ (exists msg st,
         forward ex_self_empty 3%positive ex_kwargs ex_empty_state
         = (inl (RuntimeError msg), st)
         /\ calls st = [])
  /\ ~ (exists res s' call,
           forward ex_self_empty 3%positive ex_kwargs ex_empty_state
           = (res, s')
           /\ calls s' = calls ex_empty_state ++ [call]
           /\ rc_z_clip_value call = None).
Proof.
  split; [reflexivity|]. split; [reflexivity|]. split; [reflexivity|].
  split; [eexists _, _; vm_compute; reflexivity|].
  split; [eexists _, _; split; vm_compute; reflexivity|].
  intros (res & s' & call & HF & Hcalls & _).
  assert (E : calls (forward ex_self_empty 3%positive ex_kwargs
                       ex_empty_state).2 = [])
    by (vm_compute; reflexivity).
  rewrite HF in E. cbn in E. rewrite E in Hcalls. discriminate.
Qed.

Lemma missing_camera_raises_value_error_witness :
  (transform ex_self_no_cameras 3%positive ex_kwargs ex_state
   = (inl (ValueError msg_cameras_missing), ex_state)
   /\ forward ex_self_no_cameras 3%positive ex_kwargs ex_state
      = (inl (ValueError msg_cameras_missing), ex_state))
  /\ (exists msg st,
         forward (ex_self 2) 3%positive ex_kwargs_settings_none ex_state
         = (inl (AttributeError msg), st)
         /\ calls st = calls ex_state)
  /\ (exists msg st,
         forward ex_self_empty 3%positive ex_kwargs ex_empty_state
         = (inl (RuntimeError msg), st)
         /\ calls st = calls ex_empty_state)
  /\ (exists s' call,
         calls s' = calls ex_state ++ [call]
         /\ forward (ex_self 2) 3%positive ex_kwargs ex_state
            = (match rasterize_meshes_impl (heap s') call with
               | inl e => inl e
               | inr o => inr (fragments_of o)
               end, s')).
Proof.
  split.
  { exact (proj1 (missing_camera_raises_value_error ex_self_no_cameras
                    3%positive ex_kwargs ex_state) eq_refl). }
  split.
  { exact (proj1
             (proj2 (missing_camera_raises_value_error (ex_self 2)
                       3%positive ex_kwargs_settings_none ex_state)
                (ex_cameras 2) 1%positive 2%positive ex_world
                eq_refl eq_refl eq_refl (or_intror eq_refl))
             eq_refl). }
  split.
  { exact (proj1
             (proj2
                (proj2 (missing_camera_raises_value_error ex_self_empty
                          3%positive ex_kwargs ex_empty_state)
                   ex_no_cameras 1%positive 2%positive []
                   eq_refl eq_refl eq_refl (or_intror eq_refl))
                4%positive default_settings eq_refl eq_refl)
             eq_refl). }
  exact (proj2
           (proj2
              (proj2 (missing_camera_raises_value_error (ex_self 2)
                        3%positive ex_kwargs ex_state)
                 (ex_cameras 2) 1%positive 2%positive ex_world
                 eq_refl eq_refl eq_refl (or_intror eq_refl))
              4%positive ex_settings eq_refl eq_refl)
           eq_refl).
Defined.

(** With the cameras of the scene in effect and a count that fits, an
    explicit [raster_settings=None] makes settings resolution fail: the
    failure is not a [ValueError], and [rasterize_meshes] is not called. *)
Lemma missing_camera_raises_value_error_counterexample :
  cameras_of (ex_self 2) ex_kwargs_settings_none = Some (ex_cameras 2)
  /\ count_ok (ex_cameras 2) (length ex_world)
  /\ (exists m st,
         transform (ex_self 2) 3%positive ex_kwargs_settings_none ex_state
         = (inr m, st))
  /\ (exists e st,
         forward (ex_self 2) 3%positive ex_kwargs_settings_none ex_state
         = (inl e, st)
         /\ is_ValueError e = false
         /\ calls st = calls ex_state).
Proof.
  split; [reflexivity|]. split; [right; reflexivity|].
  split; [eexists _, _; vm_compute; reflexivity|].
  eexists _, _. split; [vm_compute; reflexivity|]. split; reflexivity.
Qed.

Lemma transform_does_not_mutate_input_witness :
  let r := transform (ex_self 2) 3%positive ex_kwargs ex_state in
  heap r.2 !! 3%positive = Some (OMeshes 1%positive 2%positive)
  /\ heap r.2 !! 1%positive = Some (OVerts ex_world)
  /\ heap r.2 !! 2%positive = Some (OFaces ex_faces)
  /\ (forall l, l ∈ dom (heap ex_state) -> heap r.2 !! l = heap ex_state !! l)
  /\ (forall m', r.1 = inr m' ->
        (m' ∉ dom (heap ex_state))
        /\ exists v' ndc,
            heap r.2 !! m' = Some (OMeshes v' 2%positive)
            /\ (v' ∉ dom (heap ex_state))
            /\ heap r.2 !! v' = Some (OVerts ndc)).
Proof.
  exact (transform_does_not_mutate_input (ex_self 2) 3%positive ex_kwargs
           ex_state 1%positive 2%positive ex_world ex_faces _ _
           eq_refl eq_refl eq_refl
           (surjective_pairing
              (transform (ex_self 2) 3%positive ex_kwargs ex_state))).
Defined.

Lemma forward_passes_resolved_settings_witness :
  exists meshes_proj st s',
    transform (ex_self 2) 3%positive ex_kwargs ex_state = (inr meshes_proj, st)
    /\ calls s'
       = calls ex_state ++
         [ {| rc_meshes := meshes_proj;
              rc_image_size := SizeHW 4 4;
              rc_blur_radius := 0.5%float;
              rc_faces_per_pixel := 1;
              rc_bin_size := Some 0%Z;
              rc_max_faces_per_bin := None;
              rc_clip_barycentric_coords := true;
              rc_perspective_correct := true;
              rc_cull_backfaces := false;
              rc_z_clip_value := Some 0.25%float;
              rc_cull_to_frustum := false |} ]
    /\ heap s' !! 4%positive = Some (OSettings ex_settings)
    /\ (forall l, l ∈ dom (heap ex_state) ->
                  heap s' !! l = heap ex_state !! l)
    /\ forward (ex_self 2) 3%positive ex_kwargs ex_state
       = (inr {| pix_to_face := 10%Z; zbuf := 20%Z; bary_coords := 30%Z;
                 dists := 40%Z; back_faces := 50%Z |}, s').
Proof.
  exact (proj1
           (forward_passes_resolved_settings (ex_self 2)
              3%positive ex_kwargs ex_state (ex_cameras 2) 1%positive
              2%positive ex_world 4%positive ex_settings
              eq_refl eq_refl eq_refl (or_intror eq_refl) eq_refl eq_refl)
           eq_refl).
Defined.


Lemma forward_checks_cameras_before_settings_witness :
  forward (ex_self 3) 3%positive ex_kwargs ex_state
  = (inl (ValueError (msg_wrong_number 3 2)), ex_state).
Proof.
  apply (proj2 (proj2 (forward_checks_cameras_before_settings
                         (ex_self 3) 3%positive ex_kwargs
                         ex_state))
           (ex_cameras 3) 1%positive 2%positive ex_world);
    [reflexivity | reflexivity | reflexivity | cbn; lia | cbn; lia].
Defined.

(** ** The further properties at the concrete scene *)

(** The store of the scene holds objects 1 to 4: two rasterizers built
    without settings get the settings objects 5 and 6. *)
Example ex_init_twice :
  let r1 := init (Some (ex_cameras 2)) None ex_state in
  let r2 := init (@None (Cameras FnTransform unit)) None r1.2 in
  (r1.1, r2.1)
  = (inr {| self_cameras := Some (ex_cameras 2);
            self_raster_settings := 5%positive |},
     inr {| self_cameras := None; self_raster_settings := 6%positive |}).
Proof. vm_compute. reflexivity. Qed.

(** A rasterizer with three cameras rejects the two meshes of the scene;
    a [cameras] keyword with one camera makes the call go through. *)
Example ex_forward_override :
  (forward (ex_self 3) 3%positive ex_kwargs ex_state).1
  = inl (ValueError "Wrong number (3) of cameras for 2 meshes")
  /\ (forward (ex_self 3) 3%positive ex_kwargs_override ex_state).1
     = inr {| pix_to_face := 10%Z; zbuf := 20%Z; bary_coords := 30%Z;
              dists := 40%Z; back_faces := 50%Z |}.
Proof. split; vm_compute; reflexivity. Qed.

(** An orthographic camera with [perspective_correct=True] is clipped at
    half of its [znear]. *)
Example ex_forward_ortho_forced :
  rc_z_clip_value
    <$> (forward
           {| self_cameras := Some ex_cameras_ortho;
              self_raster_settings := 4%positive |}
           3%positive ex_kwargs ex_state_forced).2.(calls)
  = [Some 0.25%float].
Proof. vm_compute. reflexivity. Qed.

Lemma default_rasterizer_call_witness :
  exists r s1 res s2 meshes_proj,
    init (Some (ex_cameras 2)) None ex_state = (inr r, s1)
    /\ forward r 3%positive ex_kwargs s1 = (res, s2)
    /\ calls s2
       = calls ex_state ++
         [ {| rc_meshes := meshes_proj;
              rc_image_size := SizeSquare 256;
              rc_blur_radius := 0%float;
              rc_faces_per_pixel := 1;
              rc_bin_size := None;
              rc_max_faces_per_bin := None;
              rc_clip_barycentric_coords := false;
              rc_perspective_correct := true;
              rc_cull_backfaces := false;
              rc_z_clip_value := Some 0.25%float;
              rc_cull_to_frustum := false |} ].
Proof.
  exact (default_rasterizer_call (ex_cameras 2) 3%positive ex_kwargs
           ex_state 1%positive 2%positive ex_world
           eq_refl eq_refl eq_refl eq_refl (or_intror eq_refl)
           ltac:(discriminate)).
Defined.

Lemma forward_reads_settings_at_call_time_witness :
  exists r res s' meshes_proj,
    init (Some (ex_cameras 2)) (Some 4%positive) ex_state = (inr r, ex_state)
    /\ (write 4%positive (OSettings default_settings);;
        forward r 3%positive ex_kwargs) ex_state
       = (res, s')
    /\ calls s'
       = calls ex_state
         ++ [raster_call_of default_settings (ex_cameras 2) meshes_proj]
    /\ heap s' !! 4%positive = Some (OSettings default_settings).
Proof.
  exact (proj1
           (forward_reads_settings_at_call_time (ex_cameras 2) 4%positive
              3%positive ex_kwargs ex_state 1%positive 2%positive ex_world
              ex_settings default_settings
              eq_refl eq_refl eq_refl eq_refl eq_refl (or_intror eq_refl))
           eq_refl).
Defined.

Lemma keyword_arguments_take_precedence_witness :
  transform (ex_self 3) 3%positive ex_kwargs_override ex_state
  = transform ex_self_no_cameras 3%positive ex_kwargs_override ex_state
  /\ (is_Some (kw_raster_settings ex_kwargs_override) ->
      forward (ex_self 3) 3%positive ex_kwargs_override ex_state
      = forward ex_self_no_cameras 3%positive ex_kwargs_override ex_state)
  /\ (Some (ex_cameras 1) = None ->
      forward (ex_self 3) 3%positive ex_kwargs_override ex_state
      = (inl (ValueError msg_cameras_missing), ex_state)).
Proof.
  exact (keyword_arguments_take_precedence (ex_self 3) ex_self_no_cameras
           3%positive ex_kwargs_override ex_state (Some (ex_cameras 1))
           eq_refl).
Defined.

(** The perspective cameras of the scene, with [perspective_correct=False]
    in the settings: no clip depth. *)
Lemma perspective_setting_gates_inferred_clipping_witness :
  is_perspective (ex_cameras 2) = true
  /\ exists res s' call,
      forward (ex_self 2) 3%positive ex_kwargs ex_state_flat = (res, s')
      /\ calls s' = calls ex_state_flat ++ [call]
      /\ rc_z_clip_value call = None.
Proof.
  split; [reflexivity|].
  exact (perspective_setting_gates_inferred_clipping (ex_self 2) 3%positive
           ex_kwargs ex_state_flat (ex_cameras 2) 1%positive 2%positive
           ex_world 4%positive ex_settings_flat false
           eq_refl eq_refl eq_refl (or_intror eq_refl) eq_refl eq_refl
           eq_refl eq_refl ltac:(discriminate)).
Defined.

Lemma transform_preserves_shape_witness :
  exists m1 v1 ndc s1,
    transform (ex_self 2) 3%positive ex_kwargs ex_state = (inr m1, s1)
    /\ heap s1 !! m1 = Some (OMeshes v1 2%positive)
    /\ heap s1 !! v1 = Some (OVerts ndc)
    /\ length ndc = 2
    /\ (forall n, length <$> (ndc !! n) = length <$> (ex_world !! n))
    /\ meshes_len m1 s1 = (inr 2, s1)
    /\ exists m2 s2, transform (ex_self 2) m1 ex_kwargs s1 = (inr m2, s2).
Proof.
  exact (transform_preserves_shape (ex_self 2) 3%positive ex_kwargs ex_state
           (ex_cameras 2) 1%positive 2%positive ex_world
           eq_refl eq_refl eq_refl (or_intror eq_refl)).
Defined.
